(** * Listing cache and verification engine of the job-search aggregator

    A shallow embedding of [app/lib/searchEnhancer.ts],
    [app/lib/jobCacheService.ts], [app/lib/jobVerificationService.ts],
    [app/api/jobs/route.ts] and [app/api/jobs/verify/[id]/route.ts], followed
    by the properties of the specification that are settled against it.

    Conventions of the embedding.
    - JavaScript strings are Rocq strings read as ASCII text: [toLowerCase]
      maps [A]-[Z] to [a]-[z], white space is the set 9-13 and 32, and
      [String.length] counts characters.  JavaScript knows further white
      space and letters beyond ASCII; [ascii_text] tells the strings on
      which the primitives below are exactly those of JavaScript.
    - A JavaScript number that is an integer is a [Z]; [Number] gives the
      binary64 quotient of two of them.
    - A JavaScript [Set] is a duplicate-free list in insertion order.
    - A call that may throw returns a [completion]. *)

From Stdlib Require Import ZArith Lia Ascii Sorted.
From Stdlib Require Floats.SpecFloat.
From stdpp Require Import base option list gmap strings pretty sorting.

Set Warnings "-register-all".
Local Open Scope Z_scope.

(** ** Completions: normal return or thrown exception *)

Inductive completion (A : Type) : Type :=
| Returns (a : A)
| Throws.
Arguments Returns {A} a.
Arguments Throws {A}.

(** ** JavaScript string primitives *)

Module JsString.

Definition is_upper (c : ascii) : bool :=
  let n := nat_of_ascii c in (65 <=? n)%nat && (n <=? 90)%nat.

Definition lower_char (c : ascii) : ascii :=
  if is_upper c then ascii_of_nat (nat_of_ascii c + 32) else c.

(** [s.toLowerCase()] *)
Fixpoint toLowerCase (s : string) : string :=
  match s with
  | EmptyString => EmptyString
  | String c r => String (lower_char c) (toLowerCase r)
  end.

Definition is_empty (s : string) : bool :=
  match s with EmptyString => true | String _ _ => false end.

Fixpoint trimStart (s : string) : string :=
  match s with
  | EmptyString => EmptyString
  | String c r => if Ascii.is_space c then trimStart r else s
  end.

Fixpoint trimEnd (s : string) : string :=
  match s with
  | EmptyString => EmptyString
  | String c r =>
      let r' := trimEnd r in
      if Ascii.is_space c && is_empty r' then EmptyString else String c r'
  end.

(** [s.trim()] *)
Definition trim (s : string) : string := trimEnd (trimStart s).

(** [s.startsWith(p)] *)
Definition startsWith (s p : string) : bool := String.prefix p s.

(** [s.endsWith(p)] *)
Definition endsWith (s p : string) : bool :=
  String.prefix (String.rev p) (String.rev s).

(** [s.includes(sub)] *)
Fixpoint includes (s sub : string) : bool :=
  String.prefix sub s ||
  match s with
  | EmptyString => false
  | String _ r => includes r sub
  end.

(** [s.split(/\s+/)]: the pieces between maximal runs of white space;
    [prev_space] records that the previous character belonged to a run. *)
Fixpoint split_ws_from (prev_space : bool) (s : string) : list string :=
  match s with
  | EmptyString => [EmptyString]
  | String c r =>
      if Ascii.is_space c then
        if prev_space then split_ws_from true r
        else EmptyString :: split_ws_from true r
      else
        match split_ws_from false r with
        | w :: ws => String c w :: ws
        | [] => [String c EmptyString]
        end
  end.

Definition split_ws (s : string) : list string := split_ws_from false s.

(** [words.join(sep)] *)
Definition join (sep : string) (ws : list string) : string :=
  String.concat sep ws.

(** Membership in a list of strings, by [===]. *)
Definition mem (x : string) (l : list string) : bool :=
  existsb (String.eqb x) l.

(** [set.add(x)] on a [Set] kept as its insertion-ordered element list. *)
Definition set_add (l : list string) (x : string) : list string :=
  if mem x l then l else l ++ [x].

Definition set_add_all (l xs : list string) : list string :=
  foldl set_add l xs.

(** A string made of white space only (the strings [trim] empties). *)
Fixpoint all_space (s : string) : bool :=
  match s with
  | EmptyString => true
  | String c r => Ascii.is_space c && all_space r
  end.

(** [s.split(sep)] for a separator of one character. *)
Fixpoint split_on (sep : ascii) (s : string) : list string :=
  match s with
  | EmptyString => [EmptyString]
  | String c r =>
      if Ascii.eqb c sep then EmptyString :: split_on sep r
      else
        match split_on sep r with
        | w :: ws => String c w :: ws
        | [] => [String c EmptyString]
        end
  end.

(** Text of ASCII characters only.  [toLowerCase], [trim] and
    [split(/\s+/)] above are the JavaScript ones on such text; beyond
    ASCII, JavaScript has more white space (U+00A0, U+2003, ...) and
    letters with a lower-case form of their own. *)
Fixpoint ascii_text (s : string) : bool :=
  match s with
  | EmptyString => true
  | String c r => (nat_of_ascii c <? 128)%nat && ascii_text r
  end.

End JsString.

(** ** JavaScript numbers: the quotient of two integers

    [a / b] is a binary64 division: the exact quotient is rounded to 53
    significant bits, to the nearest value and to the even one of two
    nearest.  With [e] the exponent for which the quotient scaled by
    [2^-e] lies between [2^52] and [2^53], the result is [m * 2^e], [m]
    being the integer nearest to the scaled quotient.  The operands are
    positive integers that are doubles themselves, so the quotient
    neither overflows nor rounds to zero. *)

Module Number.

(** The integer nearest to [n / d], the even one of two nearest. *)
Definition nearest_even (n d : Z) : Z :=
  let q := n `div` d in
  let r2 := 2 * (n `mod` d) in
  if r2 <? d then q
  else if d <? r2 then q + 1
  else if Z.even q then q else q + 1.

(** The quotient [a / b] scaled by [2^-e], as a fraction of integers. *)
Definition numerator (a e : Z) : Z := a * 2 ^ Z.max 0 (- e).
Definition denominator (b e : Z) : Z := b * 2 ^ Z.max 0 e.

Definition exponent (a b : Z) : Z :=
  let e := Z.log2 a - Z.log2 b - 52 in
  if numerator a e <? 2 ^ 52 * denominator b e then e - 1 else e.

Definition significand (a b : Z) : Z :=
  nearest_even (numerator a (exponent a b)) (denominator b (exponent a b)).

(** [Math.ceil(a / b)] *)
Definition ceil_div (a b : Z) : Z :=
  let e := exponent a b in
  let m := significand a b in
  if 0 <=? e then m * 2 ^ e else - ((- m) `div` 2 ^ (- e)).

(** [Math.floor(a / b)] *)
Definition floor_div (a b : Z) : Z :=
  let e := exponent a b in
  let m := significand a b in
  if 0 <=? e then m * 2 ^ e else m `div` 2 ^ (- e).

(** Significand and exponent as binary64 keeps them, the significand
    below [2^53]. *)
Definition normal (a b : Z) : Z * Z :=
  if significand a b =? 2 ^ 53 then (2 ^ 52, exponent a b + 1)
  else (significand a b, exponent a b).

(** The same quotient by the specification of binary64 division in the
    Standard Library, to compare with: [None] when the result is not a
    positive finite number. *)
Definition reference_div (a b : Z) : option (Z * Z) :=
  match SpecFloat.SFdiv 53 1024
          (SpecFloat.binary_normalize 53 1024 a 0 false)
          (SpecFloat.binary_normalize 53 1024 b 0 false) with
  | SpecFloat.S754_finite false m e => Some (Z.pos m, e)
  | _ => None
  end.

End Number.

(** ** app/lib/searchEnhancer.ts *)

Module SearchEnhancer.
Import JsString.

(** [JOB_CATEGORIES], in the order [Object.entries] enumerates it. *)
Definition JOB_CATEGORIES : list (string * list string) :=
  [ ("software", ["software engineer"; "software developer"; "programmer";
                  "coder"; "developer"; "swe"; "dev"]);
    ("frontend", ["frontend developer"; "front-end developer";
                  "react developer"; "angular developer"; "vue developer";
                  "ui developer"; "javascript developer"; "web developer";
                  "fe dev"]);
    ("backend", ["backend developer"; "back-end developer"; "api developer";
                 "server developer"; "php developer"; "python developer";
                 "java developer"; "node developer"; "be dev"]);
    ("fullstack", ["full stack developer"; "full-stack developer";
                   "web developer"; "fullstack dev"; "fs dev"]);
    ("mobile", ["mobile developer"; "android developer"; "ios developer";
                "react native developer"; "app developer"]);
    ("devops", ["devops engineer"; "cloud engineer"; "sre";
                "site reliability engineer"; "infrastructure engineer"]);
    ("data", ["data scientist"; "data analyst"; "data engineer";
              "business analyst"; "database administrator"; "ds"]);
    ("analytics", ["analytics"; "business intelligence"; "bi analyst";
                   "data visualization"; "tableau"]);
    ("machine learning", ["ml engineer"; "ai engineer";
                          "artificial intelligence"; "deep learning"; "nlp";
                          "ml"]);
    ("design", ["ui designer"; "ux designer"; "graphic designer";
                "web designer"; "product designer"]);
    ("product", ["product designer"; "product manager"; "product owner";
                 "ux researcher"; "pm"]);
    ("marketing", ["digital marketing"; "content marketing"; "seo specialist";
                   "social media manager"; "marketing manager"]);
    ("sales", ["sales representative"; "account executive";
               "business development"; "sales manager"]);
    ("finance", ["financial analyst"; "accountant"; "controller";
                 "finance manager"; "bookkeeper"]);
    ("manager", ["project manager"; "team lead"; "director";
                 "program manager"; "scrum master"]);
    ("executive", ["cto"; "ceo"; "vp"; "vice president"; "chief"]);
    ("intern", ["internship"; "co-op"; "student"; "graduate"; "junior"]);
    ("senior", ["sr"; "lead"; "principal"; "architect"; "expert"]);
    ("junior", ["jr"; "entry level"; "associate"; "trainee"; "beginner"]) ].

(** The own properties of [ABBREVIATIONS]. *)
Definition ABBREVIATIONS : list (string * list string) :=
  [ ("eng", ["engineer"; "engineering"]);
    ("dev", ["developer"; "development"]);
    ("mgr", ["manager"]);
    ("sr", ["senior"]);
    ("jr", ["junior"]);
    ("swe", ["software engineer"]);
    ("fe", ["frontend"; "front-end"]);
    ("be", ["backend"; "back-end"]);
    ("fs", ["fullstack"; "full-stack"]);
    ("pm", ["product manager"; "project manager"]);
    ("qa", ["quality assurance"; "tester"]);
    ("ui", ["user interface"]);
    ("ux", ["user experience"]);
    ("ai", ["artificial intelligence"]);
    ("ml", ["machine learning"]);
    ("bi", ["business intelligence"]);
    ("ds", ["data scientist"]);
    ("sci", ["scientist"]) ].

Fixpoint assoc {V : Type} (k : string) (l : list (string * V)) : option V :=
  match l with
  | [] => None
  | (k', v) :: r => if String.eqb k k' then Some v else assoc k r
  end.

(** What the property read [ABBREVIATIONS[word]] evaluates to.
    [ABBREVIATIONS] is an object literal, so a key that is not an own
    property is looked up on [Object.prototype]; a lower-cased word can
    only meet the two all-lower-case names found there, and both denote
    truthy values that are not arrays. *)
Inductive property :=
| Own (expansions : list string)
| Inherited
| Undefined.

Definition inherited_names : list string := ["constructor"; "__proto__"].

Definition abbreviation (word : string) : property :=
  match assoc word ABBREVIATIONS with
  | Some exps => Own exps
  | None => if mem word inherited_names then Inherited else Undefined
  end.

(** The loop of [expandAbbreviations] from index [i] on; [rest] is
    [words.slice(i)].  For an own entry every expansion yields the word
    list with position [i] replaced; for an inherited value the call of
    its missing [forEach] throws a TypeError. *)
Fixpoint expand_from (words : list string) (i : nat) (rest : list string)
    (expandedTerms : list string) : completion (list string) :=
  match rest with
  | [] => Returns expandedTerms
  | word :: rest' =>
      match abbreviation word with
      | Own exps =>
          expand_from words (S i) rest'
            (foldl (fun acc expansion =>
                      set_add acc (join " " (<[i := expansion]> words)))
               expandedTerms exps)
      | Inherited => Throws
      | Undefined => expand_from words (S i) rest' expandedTerms
      end
  end.

Definition expandAbbreviations (term : string) : completion (list string) :=
  let words := split_ws (toLowerCase term) in
  expand_from words 0 words (set_add [] term).

(** The test of the word-by-word match in [findFuzzyMatches]. *)
Definition words_match (normalizedTerm keywordLower : string) : bool :=
  let termWords := split_ws normalizedTerm in
  let keywordWords := split_ws keywordLower in
  forallb (fun termWord =>
             existsb (fun keywordWord =>
                        startsWith keywordWord termWord
                        && (2 <=? String.length termWord)%nat)
               keywordWords)
    termWords.

(** The body of [keywords.forEach] for one keyword. *)
Definition match_keyword (normalizedTerm : string) (matches : list string)
    (keyword : string) : list string :=
  let keywordLower := toLowerCase keyword in
  if (3 <=? String.length normalizedTerm)%nat then
    let m1 := if includes keywordLower normalizedTerm
              then set_add matches keyword else matches in
    let m2 := if startsWith keywordLower normalizedTerm
              then set_add m1 keyword else m1 in
    if words_match normalizedTerm keywordLower
    then set_add m2 keyword else m2
  else matches.

(** The body of the loop over [Object.entries(JOB_CATEGORIES)]. *)
Definition match_category (normalizedTerm : string) (matches : list string)
    (entry : string * list string) : list string :=
  let '(category, keywords) := entry in
  let m := if includes normalizedTerm category
           then set_add_all matches (take 2 keywords) else matches in
  foldl (match_keyword normalizedTerm) m keywords.

Definition findFuzzyMatches (term : string) : list string :=
  let normalizedTerm := trim (toLowerCase term) in
  take 3 (foldl (match_category normalizedTerm) (set_add [] term)
            JOB_CATEGORIES).

(** [allMatches] of [optimizeSearchQuery], as an array. *)
Definition collectMatches (expandedTerms : list string) : list string :=
  foldl (fun allMatches term => set_add_all allMatches (findFuzzyMatches term))
    [] expandedTerms.

Definition is_better (query : string) (m : string) : bool :=
  negb (String.eqb (toLowerCase m) (toLowerCase query))
  && (String.length query <? String.length m)%nat.

(** [arr.sort((a, b) => b.length - a.length)]: [Array.prototype.sort] is
    stable, so the result is the stable arrangement by decreasing length,
    computed here by insertion from the right. *)
Fixpoint insert_by_length (x : string) (sorted : list string) : list string :=
  match sorted with
  | [] => [x]
  | y :: r =>
      if (String.length y <=? String.length x)%nat then x :: sorted
      else y :: insert_by_length x r
  end.

Definition sort_by_length_desc (l : list string) : list string :=
  foldr insert_by_length [] l.

Definition has_boolean_operator (query : string) : bool :=
  includes query " OR " || includes query " AND ".

Definition optimizeSearchQuery (query : string) : completion string :=
  if is_empty query || is_empty (trim query) then Returns ""
  else if has_boolean_operator query then Returns query
  else
    match expandAbbreviations query with
    | Throws => Throws
    | Returns expandedTerms =>
        let matchesArray := collectMatches expandedTerms in
        let betterMatches := List.filter (is_better query) matchesArray in
        match sort_by_length_desc betterMatches with
        | best :: _ => Returns best
        | [] => Returns query
        end
    end.

Definition getSearchSuggestions (query : string) : completion (list string) :=
  if is_empty query || is_empty (trim query) then Returns []
  else
    match expandAbbreviations query with
    | Throws => Throws
    | Returns expandedTerms =>
        Returns (take 5
          (foldl (fun all term =>
                    foldl (fun all suggestion =>
                             if String.eqb suggestion query then all
                             else set_add all suggestion)
                      all (findFuzzyMatches term))
             [] expandedTerms))
    end.

End SearchEnhancer.

(** ** app/types/index.ts *)

Module Types.

(** A JSON value, as the provider's payload is after [response.json()]. *)
Inductive json : Type :=
| JNull
| JBool (b : bool)
| JNum (n : Z)
| JStr (s : string)
| JArr (items : list json)
| JObj (members : list (string * json)).

(** [JobListing].  The fields the engine reads or writes are record
    fields; [job_rest] holds the remaining members of the object
    (description, company, location, created, category, salary bounds,
    contract fields, [__CLASS__], provider).  A Firestore [Timestamp] is
    its value in milliseconds; an optional field that is absent (or
    [null]) is [None]. *)
Record JobListing : Type := {
  job_id : string;
  job_title : string;
  job_redirect_url : string;
  job_rest : list (string * json);
  job_createdAt : option Z;
  job_verifiedAt : option Z;
  job_isValid : option bool;
  job_verificationAttempts : option Z
}.

(** [JobSearchParams]; a [page] or [results_per_page] that is [NaN]
    (what [parseInt] yields on a non-number) is [None] like an absent
    one: both are falsy and the code only tests truthiness. *)
Record JobSearchParams : Type := {
  title : option string;
  location : option string;
  job_type : option string;
  page : option Z;
  results_per_page : option Z
}.

(** [JobApiResponse]; [Math.ceil] of a division by zero or by [NaN] is
    not a finite number, which is [None] in [totalPages]. *)
Record JobApiResponse : Type := {
  jobs : list JobListing;
  totalJobs : Z;
  totalPages : option Z;
  currentPage : option Z;
  fromCache : bool
}.

Record CachedJobSearchResult : Type := {
  cs_params : JobSearchParams;
  cs_jobIds : list string;
  cs_totalJobs : Z;
  cs_totalPages : option Z;
  cs_createdAt : Z
}.

End Types.

(** ** The world the services run in

    The document store, the network and the clock are the collaborators of
    the engine.  [Env] fixes how they answer during one call; [World] is the
    mutable state: the two collections, the module-level counters of the
    search route, and a trace of the outbound calls made. *)

Module Runtime.
Import JsString Types.

(** The HTTP method of an outbound [fetch]; GET is the default. *)
Inductive Method := MHead | MGet.

Inductive FetchResult :=
| NetworkError                          (* rejected promise: failure or timeout *)
| Response (status : Z) (body : string).

Inductive StoreOp := GetDoc | UpdateDoc | BatchCommit.

(** The request sent to the provider, field by field as the route adds
    them to the URL. *)
Record ProviderRequest : Type := {
  pr_country : string;
  pr_page : option Z;
  pr_results_per_page : option Z;
  pr_what : option string;
  pr_where : option string;
  pr_filter : option string
}.

(** The parsed body of a provider response ([data.results], [data.count]). *)
Record ProviderData : Type := {
  pd_results : option (list JobListing);
  pd_count : option Z
}.

Inductive ProviderResult :=
| ProviderUnreachable
| ProviderResponse (status : Z) (data : option ProviderData)
    (* [None]: [response.json()] rejects, the body not being JSON, or
       gives [null] *)
| ProviderInterrupted (status : Z).
    (* the response arrives but its body cannot be read:
       [response.text()] and [response.json()] reject *)

Record Env : Type := {
  now : Z;                                      (* [Date.now()], ms *)
  today : string;                               (* [new Date().toDateString()] *)
  network : Method -> string -> FetchResult;
  store_ok : StoreOp -> bool;                   (* does the store serve this kind of call *)
  credentials : bool;                           (* the three ADZUNA_* variables are set *)
  provider : ProviderRequest -> ProviderResult
}.

Inductive Event :=
| Fetched (m : Method) (url : string)
| ValidityUpdate (jobId : string) (isValid : bool)
| ProviderCalled (req : ProviderRequest).

(** The listings table is keyed by listing id: the ids the provider
    assigns hold no [/], and such an id is the name of its document.  The
    table of searches is keyed by document reference, as [doc] below gives
    it for a cache key. *)
Record World : Type := {
  cachedJobs : gmap string JobListing;
  cachedSearchResults : gmap string CachedJobSearchResult;
  adzunaRequestsToday : Z;
  lastResetDate : string;
  trace : list Event
}.

Definition with_jobs (w : World) (js : gmap string JobListing) : World :=
  {| cachedJobs := js; cachedSearchResults := cachedSearchResults w;
     adzunaRequestsToday := adzunaRequestsToday w;
     lastResetDate := lastResetDate w; trace := trace w |}.

Definition with_searches (w : World)
    (ss : gmap string CachedJobSearchResult) : World :=
  {| cachedJobs := cachedJobs w; cachedSearchResults := ss;
     adzunaRequestsToday := adzunaRequestsToday w;
     lastResetDate := lastResetDate w; trace := trace w |}.

Definition with_counter (w : World) (n : Z) (d : string) : World :=
  {| cachedJobs := cachedJobs w; cachedSearchResults := cachedSearchResults w;
     adzunaRequestsToday := n; lastResetDate := d; trace := trace w |}.

Definition with_event (w : World) (ev : Event) : World :=
  {| cachedJobs := cachedJobs w; cachedSearchResults := cachedSearchResults w;
     adzunaRequestsToday := adzunaRequestsToday w;
     lastResetDate := lastResetDate w; trace := trace w ++ [ev] |}.

(** Computations: read the environment, thread the world, return or throw. *)
Definition M (A : Type) : Type := Env -> World -> completion A * World.

Definition ret {A} (a : A) : M A := fun _ w => (Returns a, w).
Definition throw {A} : M A := fun _ w => (Throws, w).
Definition bind {A B} (m : M A) (k : A -> M B) : M B :=
  fun e w =>
    match m e w with
    | (Returns a, w') => k a e w'
    | (Throws, w') => (Throws, w')
    end.

(** [try { body } catch { handler }] *)
Definition try_catch {A} (body handler : M A) : M A :=
  fun e w =>
    match body e w with
    | (Returns a, w') => (Returns a, w')
    | (Throws, w') => handler e w'
    end.

Definition ask : M Env := fun e w => (Returns e, w).
Definition get : M World := fun _ w => (Returns w, w).
Definition put (w : World) : M unit := fun _ _ => (Returns tt, w).
Definition emit (ev : Event) : M unit := fun _ w => (Returns tt, with_event w ev).

(** [await fetch(url, { method })] *)
Definition fetch (m : Method) (url : string) : M (Z * string) :=
  fun e w =>
    let w' := with_event w (Fetched m url) in
    match network e m url with
    | NetworkError => (Throws, w')
    | Response status body => (Returns (status, body), w')
    end.

(** [response.ok] *)
Definition response_ok (status : Z) : bool :=
  (200 <=? status) && (status <=? 299).

(** The segments of a path: its pieces between [/], the empty ones
    dropped. *)
Definition path_segments (path : string) : list string :=
  List.filter (fun segment => negb (is_empty segment)) (split_on "/" path).

(** [doc(db, collection, id)] of the store client.  The call throws when
    [id] holds [//] and when the collection followed by the segments of
    [id] is not a document path, which has an even number of segments.
    The reference is given by the segments, joined by [/]: an [id] without
    [/] names the document [id], and [doc(db, c, "/a")] names the same
    document as [doc(db, c, "a")]. *)
Definition doc (id : string) : completion string :=
  if includes id "//" then Throws
  else if Nat.odd (length (path_segments id))
       then Returns (join "/" (path_segments id))
       else Throws.

(** A string the store takes as the name of a document: not empty,
    without [/], neither [.] nor [..], not of the form [__x__], and of
    at most 1500 bytes, which 750 characters never exceed. *)
Definition is_document_id (id : string) : bool :=
  negb (is_empty id) && negb (includes id "/")
  && negb (String.eqb id ".") && negb (String.eqb id "..")
  && negb (startsWith id "__" && endsWith id "__")
  && (String.length id <=? 750)%nat.

(** The field names the store client rejects in a write: the empty one
    and those matching [/^__.*__$/] (the dot matches no line end). *)
Fixpoint has_line_end (s : string) : bool :=
  match s with
  | EmptyString => false
  | String c r =>
      bool_decide (c = "010"%char) || bool_decide (c = "013"%char)
      || has_line_end r
  end.

Definition reserved_field (key : string) : bool :=
  (4 <=? String.length key)%nat
  && startsWith key "__" && endsWith key "__"
  && negb (has_line_end (String.substring 2 (String.length key - 4) key)).

(** Whether the client accepts a value of the data passed to
    [batch.set]: it throws on a rejected field name and on an array that
    is directly an element of an array ([arrayElement] tells that the
    value is an element of an array). *)
Fixpoint accepts_value (arrayElement : bool) (v : json) : bool :=
  match v with
  | JArr items => negb arrayElement && forallb (accepts_value true) items
  | JObj members =>
      (fix fields (ms : list (string * json)) : bool :=
         match ms with
         | [] => true
         | (key, x) :: r =>
             negb (is_empty key) && negb (reserved_field key)
             && accepts_value false x && fields r
         end) members
  | _ => true
  end.

(** [await getDoc(doc(db, JOBS_COLLECTION, id))], as [exists()]/[data()]. *)
Definition getJobDoc (jobId : string) : M (option JobListing) :=
  fun e w =>
    if store_ok e GetDoc then (Returns (cachedJobs w !! jobId), w)
    else (Throws, w).

(** [await getDoc(searchResultRef)] *)
Definition getSearchDoc (ref : string) : M (option CachedJobSearchResult) :=
  fun e w =>
    if store_ok e GetDoc then (Returns (cachedSearchResults w !! ref), w)
    else (Throws, w).

(** [await updateDoc(ref, fields)]: rejects when the document is missing. *)
Definition updateJobDoc (jobId : string) (f : JobListing -> JobListing) : M unit :=
  fun e w =>
    if store_ok e UpdateDoc then
      match cachedJobs w !! jobId with
      | Some d => (Returns tt, with_jobs w (<[jobId := f d]> (cachedJobs w)))
      | None => (Throws, w)
      end
    else (Throws, w).

(** A [writeBatch]: the writes queued by [batch.set], applied together by
    [commit] or not at all. *)
Inductive Write :=
| SetSearch (ref : string) (d : CachedJobSearchResult)
| SetJob (jobId : string) (d : JobListing).

Definition apply_write (w : World) (op : Write) : World :=
  match op with
  | SetSearch ref d => with_searches w (<[ref := d]> (cachedSearchResults w))
  | SetJob jobId d => with_jobs w (<[jobId := d]> (cachedJobs w))
  end.

Definition commit (batch : list Write) : M unit :=
  fun e w =>
    if store_ok e BatchCommit then (Returns tt, foldl apply_write w batch)
    else (Throws, w).

(** A synchronous call that may throw. *)
Definition lift {A} (c : completion A) : M A := fun _ w => (c, w).

(** [await fetch(apiUrl.toString())] of the search route: the status of
    the response and what reading its body gives. *)
Definition call_provider (req : ProviderRequest)
    : M (Z * completion (option ProviderData)) :=
  fun e w =>
    let w' := with_event w (ProviderCalled req) in
    match provider e req with
    | ProviderUnreachable => (Throws, w')
    | ProviderResponse status data => (Returns (status, Returns data), w')
    | ProviderInterrupted status => (Returns (status, Throws), w')
    end.

End Runtime.

Declare Scope js_scope.
Delimit Scope js_scope with js.
Notation "'await' x <- m ;; k" := (Runtime.bind m (fun x => k))
  (at level 10, x name, m at level 99, k at level 200) : js_scope.
Notation "'run' m ;; k" := (Runtime.bind m (fun _ => k))
  (at level 10, m at level 99, k at level 200) : js_scope.

(** ** app/lib/jobCacheService.ts *)

Module JobCache.
Import JsString Types Runtime.
Local Open Scope js_scope.

(** Default expiration time (20 days in milliseconds) *)
Definition DEFAULT_EXPIRATION_MS : Z := 20 * 24 * 60 * 60 * 1000.

(** [params.page || 1]: an absent, [NaN] or zero page reads as 1. *)
Definition page_or_1 (p : option Z) : Z :=
  match p with
  | Some n => if n =? 0 then 1 else n
  | None => 1
  end.

(** [s || ''] *)
Definition or_empty (s : option string) : string := default "" s.

(** The template literal of [getSearchCacheKey]; an integer page is
    rendered in decimal, as [Number.prototype.toString] does. *)
Definition getSearchCacheKey (params : JobSearchParams) : string :=
  or_empty (title params) +:+ "_" +:+ or_empty (location params) +:+ "_"
  +:+ or_empty (job_type params) +:+ "_" +:+ pretty (page_or_1 (page params)).

(** The four fields as the key reads them, after the [||] defaults. *)
Definition key_fields (params : JobSearchParams)
    : string * string * string * Z :=
  (or_empty (title params), or_empty (location params),
   or_empty (job_type params), page_or_1 (page params)).

Definition getCachedSearchResults (params : JobSearchParams)
    : M (option CachedJobSearchResult) :=
  try_catch
    (let cacheKey := getSearchCacheKey params in
     await searchResultRef <- lift (doc cacheKey) ;;
     await searchResultDoc <- getSearchDoc searchResultRef ;;
     match searchResultDoc with
     | None => ret None
     | Some data =>
         await e <- ask ;;
         let expirationTime := cs_createdAt data + DEFAULT_EXPIRATION_MS in
         if expirationTime <? now e then ret None else ret (Some data)
     end)
    (ret None).

(** [key.startsWith('__') && key.endsWith('__')] *)
Definition is_dunder (key : string) : bool :=
  startsWith key "__" && endsWith key "__".

(** [sanitizeObject]: the in-place walk, returning the walked value.
    Arrays are objects too: their keys are indices, never removed, and
    their items are walked. *)
Fixpoint sanitizeObject (v : json) : json :=
  match v with
  | JArr items => JArr (map sanitizeObject items)
  | JObj members =>
      JObj ((fix walk (ms : list (string * json)) : list (string * json) :=
               match ms with
               | [] => []
               | (key, x) :: r =>
                   if is_dunder key then walk r
                   else (key, sanitizeObject x) :: walk r
               end) members)
  | _ => v
  end.

(** [sanitizeJobForFirestore]: no name of a record field has the marker
    form, so the walk bears on the remaining members only. *)
Definition sanitizeJobForFirestore (job : JobListing) : JobListing :=
  match sanitizeObject (JObj (job_rest job)) with
  | JObj members =>
      {| job_id := job_id job; job_title := job_title job;
         job_redirect_url := job_redirect_url job; job_rest := members;
         job_createdAt := job_createdAt job; job_verifiedAt := job_verifiedAt job;
         job_isValid := job_isValid job;
         job_verificationAttempts := job_verificationAttempts job |}
  | _ => job
  end.

(** The object literal written for one job by [cacheSearchResults]:
    the four fields after the spread replace whatever the spread gave. *)
Definition cached_job_document (t : Z) (sanitizedJob : JobListing) : JobListing :=
  {| job_id := job_id sanitizedJob; job_title := job_title sanitizedJob;
     job_redirect_url := job_redirect_url sanitizedJob;
     job_rest := job_rest sanitizedJob;
     job_createdAt := Some t;
     job_verifiedAt := None;
     job_isValid := Some true;
     job_verificationAttempts := Some 0 |}.

(** The writes queued by the [for] loop over [jobs]. *)
Definition job_writes (t : Z) (jobs : list JobListing) : list Write :=
  map (fun job => SetJob (job_id job)
                    (cached_job_document t (sanitizeJobForFirestore job)))
    jobs.

(** Whether the loop over [jobs] queues the write of [job]:
    [doc(db, JOBS_COLLECTION, job.id)] and [batch.set] both throw on what
    the store client rejects. *)
Definition job_write_accepted (job : JobListing) : bool :=
  match doc (job_id job) with Returns _ => true | Throws => false end
  && accepts_value false (JObj (job_rest (sanitizeJobForFirestore job))).

(** Nothing is written before [batch.commit()], so a throw while the
    batch is filled leaves the store as it was, at whichever job it
    happens.  A batch beyond what one write batch of the store holds is a
    commit that the store refuses. *)
Definition cacheSearchResults (params : JobSearchParams)
    (jobs : list JobListing) (totalJobs : Z) (totalPages : option Z) : M bool :=
  try_catch
    (let cacheKey := getSearchCacheKey params in
     await searchResultRef <- lift (doc cacheKey) ;;
     await e <- ask ;;
     let batch :=
       SetSearch searchResultRef
         {| cs_params := params; cs_jobIds := map job_id jobs;
            cs_totalJobs := totalJobs; cs_totalPages := totalPages;
            cs_createdAt := now e |}
       :: job_writes (now e) jobs in
     if forallb job_write_accepted jobs then
       run commit batch ;;
       ret true
     else throw)
    (ret false).

(** A listing the cache write stores under its id: the id is the name of
    a document and the store client accepts the sanitized listing. *)
Definition storable (job : JobListing) : bool :=
  is_document_id (job_id job)
  && accepts_value false (JObj (job_rest (sanitizeJobForFirestore job))).

(** Whether the cache write reaches [batch.commit()]. *)
Definition write_accepted (params : JobSearchParams) (jobs : list JobListing)
    : bool :=
  match doc (getSearchCacheKey params) with
  | Returns _ => forallb job_write_accepted jobs
  | Throws => false
  end.

(** [if (jobData.isValid)] *)
Definition truthy (b : option bool) : bool := default false b.

(** The inner [for (const jobId of batch)] loop. *)
Fixpoint read_batch (batch : list string) (jobs : list JobListing)
    : M (list JobListing) :=
  match batch with
  | [] => ret jobs
  | jobId :: r =>
      await jobDoc <- getJobDoc jobId ;;
      match jobDoc with
      | Some jobData =>
          if truthy (job_isValid jobData) then read_batch r (jobs ++ [jobData])
          else read_batch r jobs
      | None => read_batch r jobs
      end
  end.

(** The outer loop [for (let i = 0; i < jobIds.length; i += 10)];
    [rounds] bounds the number of iterations. *)
Fixpoint read_batches (rounds : nat) (i : nat) (jobIds : list string)
    (jobs : list JobListing) : M (list JobListing) :=
  match rounds with
  | O => ret jobs
  | S rounds' =>
      if (i <? length jobIds)%nat then
        let batch := take 10 (drop i jobIds) in
        await jobs' <- read_batch batch jobs ;;
        read_batches rounds' (i + 10) jobIds jobs'
      else ret jobs
  end.

(** Every iteration advances [i] by 10, so [length jobIds] rounds
    exhaust the list. *)
Definition getCachedJobsByIds (jobIds : list string) : M (list JobListing) :=
  try_catch (read_batches (length jobIds) 0 jobIds []) (ret []).

Definition getCachedJob (jobId : string) : M (option JobListing) :=
  try_catch
    (await jobDoc <- getJobDoc jobId ;;
     match jobDoc with
     | None => ret None
     | Some jobData =>
         match job_createdAt jobData with
         | None => ret (Some jobData)
         | Some createdAt =>
             await e <- ask ;;
             let expirationTime := createdAt + DEFAULT_EXPIRATION_MS in
             if expirationTime <? now e then ret None else ret (Some jobData)
         end
     end)
    (ret None).

(** [data()?.verificationAttempts + 1 || 1] *)
Definition next_attempts (snapshot : option JobListing) : Z :=
  match snapshot ≫= job_verificationAttempts with
  | Some n => if n + 1 =? 0 then 1 else n + 1
  | None => 1
  end.

Definition set_validity (isValid : bool) (t attempts : Z) (d : JobListing)
    : JobListing :=
  {| job_id := job_id d; job_title := job_title d;
     job_redirect_url := job_redirect_url d; job_rest := job_rest d;
     job_createdAt := job_createdAt d;
     job_verifiedAt := Some t;
     job_isValid := Some isValid;
     job_verificationAttempts := Some attempts |}.

(** Every call is recorded in the trace before the body runs. *)
Definition updateJobValidity (jobId : string) (isValid : bool) : M bool :=
  run emit (ValidityUpdate jobId isValid) ;;
  try_catch
    (await snapshot <- getJobDoc jobId ;;
     await e <- ask ;;
     run updateJobDoc jobId (set_validity isValid (now e) (next_attempts snapshot)) ;;
     ret true)
    (ret false).

(** The listing a batch read keeps for one id. *)
Definition valid_listing (w : World) (jobId : string) : option JobListing :=
  match cachedJobs w !! jobId with
  | Some d => if truthy (job_isValid d) then Some d else None
  | None => None
  end.

(** The verification fields a cache write gives a listing. *)
Definition has_defaults (t : Z) (d : JobListing) : Prop :=
  job_createdAt d = Some t /\ job_verifiedAt d = None /\
  job_isValid d = Some true /\ job_verificationAttempts d = Some 0.

End JobCache.

(** ** app/lib/jobVerificationService.ts *)

Module JobVerification.
Import JsString Types Runtime JobCache.
Local Open Scope js_scope.

Definition verifyJobValidity (job : JobListing) : M bool :=
  try_catch
    (if is_empty (job_redirect_url job) then ret true
     else
       await response <- fetch MHead (job_redirect_url job) ;;
       let status := fst response in
       let isValid :=
         response_ok status
         && negb (bool_decide (status ∈ [404; 410])) in
       await _ <- updateJobValidity (job_id job) isValid ;;
       ret isValid)
    (ret true).

Definition closedPhrases : list string :=
  [ "position has been filled"; "no longer accepting applications";
    "application period closed"; "this job is no longer available";
    "position is filled"; "job has been closed"; "vacancy is now closed" ].

Definition applicationFormIndicators : list string :=
  [ "application form"; "apply now"; "submit your"; "upload your";
    "resume"; "cv"; "cover letter" ].

Definition performAdvancedVerification (job : JobListing) : M bool :=
  try_catch
    (if is_empty (job_redirect_url job) then ret true
     else
       await response <- fetch MGet (job_redirect_url job) ;;
       let '(status, text) := response in
       if negb (response_ok status) then
         await _ <- updateJobValidity (job_id job) false ;;
         ret false
       else
         let textLower := toLowerCase text in
         if existsb (includes textLower) closedPhrases then
           await _ <- updateJobValidity (job_id job) false ;;
           ret false
         else
           let hasApplicationForm :=
             existsb (includes textLower) applicationFormIndicators in
           await _ <- updateJobValidity (job_id job) hasApplicationForm ;;
           ret hasApplicationForm)
    (ret true).

Definition TEN_DAYS_MS : Z := 10 * 24 * 60 * 60 * 1000.
Definition FIFTEEN_DAYS_MS : Z := 15 * 24 * 60 * 60 * 1000.

(** [jobAge]: [None] is the [Infinity] the code starts from, kept when
    the listing has no cache timestamp. *)
Definition jobAge (e : Env) (job : JobListing) : option Z :=
  match job_createdAt job with
  | Some createdAt => Some (now e - createdAt)
  | None => None
  end.

(** [jobAge < TEN_DAYS_MS] *)
Definition younger_than (age : option Z) (bound : Z) : bool :=
  match age with Some a => a <? bound | None => false end.

(** [jobAge !== Infinity && jobAge > FIFTEEN_DAYS_MS] *)
Definition finite_and_older_than (age : option Z) (bound : Z) : bool :=
  match age with Some a => bound <? a | None => false end.

Definition verifyJobById (jobId : string) : M bool :=
  try_catch
    (await cached <- getCachedJob jobId ;;
     match cached with
     | None => ret false
     | Some job =>
         await e <- ask ;;
         let age := jobAge e job in
         if younger_than age TEN_DAYS_MS then ret true
         else
           await isValidBasic <- verifyJobValidity job ;;
           if negb isValidBasic then ret false
           else if finite_and_older_than age FIFTEEN_DAYS_MS
                then performAdvancedVerification job
                else ret isValidBasic
     end)
    (ret true).

End JobVerification.

(** ** app/api/jobs/route.ts *)

Module JobsRoute.
Import JsString SearchEnhancer Types Runtime JobCache.
Local Open Scope js_scope.

(** The query string as read at the top of the handler: each text
    parameter after [|| ""], each number after [parseInt] ([None] is
    [NaN]), and [skip_cache === "true"]. *)
Record SearchRequest : Type := {
  rq_title : string;
  rq_location : string;
  rq_jobType : string;
  rq_page : option Z;
  rq_results_per_page : option Z;
  rq_skipCache : bool
}.

Inductive HttpResponse :=
| JsonError (status : Z) (error : string)
| JsonOk (body : JobApiResponse).

(** [NextResponse.json({ error }, { status })]: the [Response] it builds
    throws a RangeError for a status outside 200..599 and a TypeError for
    a body given with a null-body status. *)
Definition null_body_status (status : Z) : bool :=
  bool_decide (status ∈ [101; 103; 204; 205; 304]).

Definition json_error (status : Z) (error : string) : completion HttpResponse :=
  if (200 <=? status) && (status <=? 599) && negb (null_body_status status)
  then Returns (JsonError status error)
  else Throws.

Definition checkAndResetCounter : M unit :=
  await e <- ask ;;
  await w <- get ;;
  if String.eqb (today e) (lastResetDate w) then ret tt
  else put (with_counter w 0 (today e)).

Definition countryCode (location : string) : string :=
  let l := toLowerCase location in
  if includes l "toronto" || includes l "canada" || includes l "ontario"
  then "ca"
  else if includes l "london" || includes l "uk" || includes l "england"
  then "gb"
  else "us".

(** The [switch (jobType)]: which flag is appended to the URL. *)
Definition job_type_filter (jobType : string) : option string :=
  if mem jobType ["full_time"; "part_time"; "contract"; "permanent"]
  then Some jobType else None.

(** [Math.ceil(count / results_per_page)], on the binary64 quotient.  A
    division by zero or by [NaN] gives no finite number; a negative
    quotient is rounded towards zero by [Math.ceil]. *)
Definition total_pages (count : Z) (results_per_page : option Z) : option Z :=
  match results_per_page with
  | Some r =>
      if r =? 0 then None
      else if count =? 0 then Some 0
      else if Bool.eqb (0 <? count) (0 <? r)
           then Some (Number.ceil_div (Z.abs count) (Z.abs r))
           else Some (- Number.floor_div (Z.abs count) (Z.abs r))
  | None => None
  end.

(** [data.count || 0] *)
Definition count_or_0 (c : option Z) : Z := default 0 c.

Definition params_of (rq : SearchRequest) : JobSearchParams :=
  {| title := Some (rq_title rq); location := Some (rq_location rq);
     job_type := Some (rq_jobType rq); page := rq_page rq;
     results_per_page := rq_results_per_page rq |}.

(** [optimizeSearchQuery(title)] under [if (title)]: the [what] parameter. *)
Definition what_parameter (rq : SearchRequest) : completion (option string) :=
  if is_empty (rq_title rq) then Returns None
  else match optimizeSearchQuery (rq_title rq) with
       | Returns q => Returns (Some q)
       | Throws => Throws
       end.

Definition provider_request (rq : SearchRequest) (what : option string)
    : ProviderRequest :=
  {| pr_country := countryCode (rq_location rq);
     pr_page := rq_page rq;
     pr_results_per_page := rq_results_per_page rq;
     pr_what := what;
     pr_where := if is_empty (rq_location rq) then None
                 else Some (rq_location rq);
     pr_filter := job_type_filter (rq_jobType rq) |}.

(** [responseData] *)
Definition response_data (rq : SearchRequest) (data : ProviderData)
    : JobApiResponse :=
  {| jobs := default [] (pd_results data);
     totalJobs := count_or_0 (pd_count data);
     totalPages := total_pages (count_or_0 (pd_count data))
                     (rq_results_per_page rq);
     currentPage := rq_page rq;
     fromCache := false |}.

(** The part of the handler after a cache miss.  [cleanupExpiredJobs()]
    is started after the cache write and not awaited: it has issued no
    write when the response is returned, so it does not appear here. *)
Definition fetch_fresh (rq : SearchRequest) : M HttpResponse :=
  await e <- ask ;;
  if negb (credentials e) then ret (JsonError 500 "API credentials not configured")
  else
    run checkAndResetCounter ;;
    await w <- get ;;
    if 90 <=? adzunaRequestsToday w
    then ret (JsonError 429 "API rate limit reached for today")
    else
      await what <- lift (what_parameter rq) ;;
      await w1 <- get ;;
      run put (with_counter w1 (adzunaRequestsToday w1 + 1) (lastResetDate w1)) ;;
      await response <- call_provider (provider_request rq what) ;;
      let '(status, body) := response in
      if negb (response_ok status)
      then
        await errorText <- lift body ;;
        lift (json_error status "Failed to fetch job listings")
      else
        await parsed <- lift body ;;
        await data <- lift (match parsed with Some d => Returns d | None => Throws end) ;;
        let responseData := response_data rq data in
        await _ <- cacheSearchResults (params_of rq) (jobs responseData)
                     (totalJobs responseData) (totalPages responseData) ;;
        ret (JsonOk responseData).

(** The cache check at the top of the handler. *)
Definition cache_lookup (rq : SearchRequest) : M (option CachedJobSearchResult) :=
  if rq_skipCache rq then ret None
  else try_catch (getCachedSearchResults (params_of rq)) (ret None).

Definition GET (rq : SearchRequest) : M HttpResponse :=
  try_catch
    (await cachedResults <- cache_lookup rq ;;
     match cachedResults with
     | Some cached =>
         await js <- getCachedJobsByIds (cs_jobIds cached) ;;
         ret (JsonOk {| jobs := js; totalJobs := cs_totalJobs cached;
                        totalPages := cs_totalPages cached;
                        currentPage := rq_page rq; fromCache := true |})
     | None => fetch_fresh rq
     end)
    (ret (JsonError 500 "Internal server error")).

End JobsRoute.

(** ** app/api/jobs/verify/[id]/route.ts *)

Module VerifyRoute.
Import JsString Types Runtime JobCache JobVerification.
Local Open Scope js_scope.

Record VerificationStatus : Type := {
  vs_isValid : bool;
  vs_verifiedAt : option Z;
  vs_attempts : Z;
  vs_job : option JobListing
}.

Inductive HttpResponse :=
| JsonError (status : Z) (error : string)
| JsonOk (body : VerificationStatus).

(** [updatedJob?.verificationAttempts || 0] *)
Definition attempts_or_0 (job : option JobListing) : Z :=
  default 0 (job ≫= job_verificationAttempts).

Definition GET (jobId : string) : M HttpResponse :=
  try_catch
    (if is_empty jobId then ret (JsonError 400 "Job ID is required")
     else
       await cachedJob <- getCachedJob jobId ;;
       match cachedJob with
       | None => ret (JsonError 404 "Job not found in cache")
       | Some _ =>
           await isValid <- verifyJobById jobId ;;
           await updatedJob <- getCachedJob jobId ;;
           ret (JsonOk {| vs_isValid := isValid;
                          vs_verifiedAt := updatedJob ≫= job_verifiedAt;
                          vs_attempts := attempts_or_0 updatedJob;
                          vs_job := updatedJob |})
       end)
    (ret (JsonError 500 "Failed to verify job")).

End VerifyRoute.

(** ** The selection rule in the words of the specification

    "From the collected candidate set, discard any candidate equal to the
    original query or shorter than it; if candidates remain, return the
    longest remaining candidate (ties broken by original collection
    order); otherwise return the original query unchanged." *)

Module OptimizerSpec.
Import JsString SearchEnhancer.



(** The order of [(a, b) => b.length - a.length]: [a] may precede [b]. *)
Definition by_length_desc (a b : string) : Prop :=
  (String.length b <= String.length a)%nat.


End OptimizerSpec.

(** ** The expiry sweeper of app/lib/jobCacheService.ts *)

Module ExpirySweeper.
Import Types Runtime JobCache.
Local Open Scope js_scope.

(** [where("createdAt", "!=", null)] and [where("createdAt", "<", ts)]:
    the document has a cache timestamp and it precedes the bound. *)
Definition is_expired (expirationTimestamp : Z) (d : JobListing) : bool :=
  match job_createdAt d with
  | Some t => t <? expirationTimestamp
  | None => false
  end.

(** The order in which the store returns the matches of a range filter:
    by the filtered field, then by document id. *)
Definition query_leb (a b : string * JobListing) : bool :=
  match job_createdAt a.2, job_createdAt b.2 with
  | Some x, Some y => (x <? y) || ((x =? y) && String.leb a.1 b.1)
  | _, _ => true
  end.

Definition query_before (a b : string * JobListing) : Prop :=
  Is_true (query_leb a b).

(** The documents of [expiredJobsSnapshot], with their ids. *)
Definition expiredJobsQuery (expirationTimestamp batchSize : Z) (w : World)
    : list (string * JobListing) :=
  take (Z.to_nat batchSize)
    (merge_sort query_before
       (List.filter (fun kv => is_expired expirationTimestamp kv.2)
          (map_to_list (cachedJobs w)))).

(** [await getDocs(expiredJobsQuery)]; a query is served like a read. *)
Definition getExpiredDocs (expirationTimestamp batchSize : Z)
    : M (list (string * JobListing)) :=
  fun e w =>
    if store_ok e GetDoc
    then (Returns (expiredJobsQuery expirationTimestamp batchSize w), w)
    else (Throws, w).

(** A [writeBatch] of [batch.delete] calls and its [commit]. *)
Definition delete_all (refs : list string) (js : gmap string JobListing)
    : gmap string JobListing :=
  foldl (fun m jobId => delete jobId m) js refs.

Definition commit_deletes (refs : list string) : M unit :=
  fun e w =>
    if store_ok e BatchCommit
    then (Returns tt, with_jobs w (delete_all refs (cachedJobs w)))
    else (Throws, w).

(** [cleanupExpiredJobs(batchSize)].  [expirationTimestamp] is the bound
    the function computes from the local calendar ([setDate(getDate() -
    20)]); [limit] rejects a batch size that is not positive.  Batch sizes
    beyond what one write batch of the store accepts are outside the
    model. *)
Definition cleanupExpiredJobs (expirationTimestamp batchSize : Z) : M Z :=
  try_catch
    (if batchSize <=? 0 then throw
     else
       await snapshot <- getExpiredDocs expirationTimestamp batchSize ;;
       if bool_decide (snapshot = []) then ret 0
       else
         run commit_deletes (map fst snapshot) ;;
         ret (Z.of_nat (length snapshot)))
    (ret 0).

(** The bound when the local clock keeps its UTC offset over the 20 days. *)
Definition twenty_days_before (e : Env) : Z := now e - DEFAULT_EXPIRATION_MS.

End ExpirySweeper.

(** ** Predicates used to state properties of the store *)

Module StoreFacts.
Import JsString Types Runtime JobCache ExpirySweeper.

(** The number of stored listings the sweeper's query matches. *)
Definition expired_count (expirationTimestamp : Z) (w : World) : nat :=
  length (List.filter (fun kv => is_expired expirationTimestamp kv.2)
            (map_to_list (cachedJobs w))).

(** Some key of the marker form ([__x__]) occurs in the value, at any depth. *)
Fixpoint has_marker_key (v : json) : bool :=
  match v with
  | JArr items => existsb has_marker_key items
  | JObj members =>
      (fix scan (ms : list (string * json)) : bool :=
         match ms with
         | [] => false
         | (key, x) :: r => is_dunder key || has_marker_key x || scan r
         end) members
  | _ => false
  end.


(** The document [cacheSearchResults] stores for a listing at time [t]. *)
Definition stored_as (t : Z) (job : JobListing) : JobListing :=
  cached_job_document t (sanitizeJobForFirestore job).


(** The entry [cacheSearchResults] stores for a search at time [t]. *)
Definition search_entry (params : JobSearchParams) (js : list JobListing)
    (totalJobs : Z) (totalPages : option Z) (t : Z) : CachedJobSearchResult :=
  {| cs_params := params; cs_jobIds := map job_id js;
     cs_totalJobs := totalJobs; cs_totalPages := totalPages;
     cs_createdAt := t |}.



(** The world after the day check of the rate limiter. *)
Definition after_day_check (e : Env) (w : World) : World :=
  if String.eqb (today e) (lastResetDate w) then w
  else with_counter w 0 (today e).

(** The world in which the provider is called. *)
Definition at_provider_call (rq : JobsRoute.SearchRequest)
    (what : option string) (e : Env) (w : World) : World :=
  with_event
    (with_counter (after_day_check e w)
       (adzunaRequestsToday (after_day_check e w) + 1)
       (lastResetDate (after_day_check e w)))
    (ProviderCalled (JobsRoute.provider_request rq what)).

(** The two caches are the same in both worlds. *)
Definition same_caches (w w' : World) : Prop :=
  cachedJobs w' = cachedJobs w /\ cachedSearchResults w' = cachedSearchResults w.

Definition provider_calls (events : list Event) : list ProviderRequest :=
  omap (fun ev => match ev with ProviderCalled req => Some req | _ => None end)
    events.

Definition fetches (events : list Event) : list (Method * string) :=
  omap (fun ev => match ev with Fetched m url => Some (m, url) | _ => None end)
    events.

End StoreFacts.

(** ** Sample data *)

Module Samples.
Import Types Runtime.

Definition listing42 : JobListing :=
  {| job_id := "42"; job_title := "Frontend Developer";
     job_redirect_url := "https://jobs.example/42";
     job_rest :=
       [ ("company", JObj [("display_name", JStr "Acme");
                           ("__CLASS__", JStr "Adzuna::API::Response::Company")]);
         ("salary_min", JNum 50000);
         ("__CLASS__", JStr "Adzuna::API::Response::Job") ];
     job_createdAt := None; job_verifiedAt := None;
     job_isValid := None; job_verificationAttempts := None |}.

(** The same listing as stored at time 0 and found dead by three
    verifications, the last one at time [1000]. *)
Definition verified42 : JobListing :=
  {| job_id := "42"; job_title := "Frontend Developer";
     job_redirect_url := "https://jobs.example/42";
     job_rest := [("salary_min", JNum 50000)];
     job_createdAt := Some 0; job_verifiedAt := Some 1000;
     job_isValid := Some false; job_verificationAttempts := Some 3 |}.

(** The same listing as first cached at time 0. *)
Definition cached42 : JobListing :=
  {| job_id := "42"; job_title := "Frontend Developer";
     job_redirect_url := "https://jobs.example/42";
     job_rest := [("salary_min", JNum 50000)];
     job_createdAt := Some 0; job_verifiedAt := None;
     job_isValid := Some true; job_verificationAttempts := Some 0 |}.

Definition world_of (js : gmap string JobListing) : World :=
  {| cachedJobs := js; cachedSearchResults := ∅;
     adzunaRequestsToday := 0; lastResetDate := "Mon Nov 02 2026";
     trace := [] |}.

Definition provider_one : ProviderRequest -> ProviderResult :=
  fun _ => ProviderResponse 200
             (Some {| pd_results := Some [listing42]; pd_count := Some 1 |}).

(** An environment at time [t] whose network answers [net] and whose
    store serves the kinds of call selected by [ok]. *)
Definition env_at (t : Z) (net : FetchResult) (ok : StoreOp -> bool) : Env :=
  {| now := t; today := "Mon Nov 02 2026"; network := fun _ _ => net;
     store_ok := ok; credentials := true; provider := provider_one |}.

Definition store_up : StoreOp -> bool := fun _ => true.
Definition commit_fails : StoreOp -> bool :=
  fun op => match op with BatchCommit => false | _ => true end.

Definition day : Z := 24 * 60 * 60 * 1000.

Definition frontend_request : JobsRoute.SearchRequest :=
  {| JobsRoute.rq_title := "frontend dev"; JobsRoute.rq_location := "";
     JobsRoute.rq_jobType := ""; JobsRoute.rq_page := Some 1;
     JobsRoute.rq_results_per_page := Some 10;
     JobsRoute.rq_skipCache := false |}.

Definition frontend_response : JobApiResponse :=
  {| jobs := [listing42]; totalJobs := 1; totalPages := Some 1;
     currentPage := Some 1; fromCache := false |}.

Definition provider_down : ProviderRequest -> ProviderResult :=
  fun _ => ProviderResponse 503 None.

(** An environment without credentials and with a failing provider. *)
Definition env_unconfigured (t : Z) : Env :=
  {| now := t; today := "Tue Nov 03 2026"; network := fun _ _ => NetworkError;
     store_ok := store_up; credentials := false; provider := provider_down |}.

(** An environment whose provider answers 503. *)
Definition env_provider_down (t : Z) : Env :=
  {| now := t; today := "Mon Nov 02 2026"; network := fun _ _ => NetworkError;
     store_ok := store_up; credentials := true; provider := provider_down |}.

Definition frontend_search : JobSearchParams :=
  {| title := Some "frontend dev"; location := Some "";
     job_type := Some ""; page := Some 1; results_per_page := Some 10 |}.

End Samples.

(** * Properties *)

Import JsString SearchEnhancer Types Runtime JobCache JobVerification.

(** ** Strings *)

Section StringFacts.

Lemma app_String (c : ascii) (s t : string) :
  String c s +:+ t = String c (s +:+ t).
Proof. reflexivity. Qed.

Lemma app_Empty (t : string) : "" +:+ t = t.
Proof. reflexivity. Qed.

Lemma length_toLowerCase (s : string) :
  String.length (toLowerCase s) = String.length s.
Proof. induction s as [|c r IH]; simpl; congruence. Qed.

Lemma trimEnd_nonspace_head (c : ascii) (r : string) :
  Ascii.is_space c = false -> is_empty (trimEnd (String c r)) = false.
Proof. intros Hc. simpl. rewrite Hc. reflexivity. Qed.

Lemma blank_all_space (s : string) :
  is_empty (trim s) = true -> all_space s = true.
Proof.
  unfold trim. induction s as [|c r IH]; [reflexivity|].
  cbn [trimStart all_space]. destruct (Ascii.is_space c) eqn:Hc.
  - intros H. rewrite IH by exact H. reflexivity.
  - intros H. rewrite trimEnd_nonspace_head in H by exact Hc. discriminate.
Qed.

Lemma prefix_all_space (sub s : string) :
  String.prefix sub s = true -> all_space s = true -> all_space sub = true.
Proof.
  revert s. induction sub as [|a sub IH]; intros s; [reflexivity|].
  destruct s as [|b s]; simpl; [discriminate|].
  destruct (ascii_dec a b) as [->|]; [|discriminate].
  intros Hp [Hb Hs]%andb_prop. rewrite Hb. simpl. eauto.
Qed.

Lemma includes_all_space (s sub : string) :
  includes s sub = true -> all_space s = true -> all_space sub = true.
Proof.
  induction s as [|c r IH]; cbn [includes].
  - rewrite orb_false_r. apply prefix_all_space.
  - intros [Hp|Hi]%orb_prop Hs; [eapply prefix_all_space; eauto|].
    apply IH; [exact Hi|]. simpl in Hs. apply andb_prop in Hs. tauto.
Qed.

(** A query that contains a non-blank text is not blank. *)
Lemma includes_not_blank (s sub : string) :
  includes s sub = true -> all_space sub = false -> is_empty (trim s) = false.
Proof.
  intros Hi Hsub. destruct (is_empty (trim s)) eqn:Hb; [|reflexivity].
  apply blank_all_space in Hb.
  rewrite (includes_all_space _ _ Hi Hb) in Hsub. discriminate.
Qed.

Lemma is_empty_true (s : string) : is_empty s = true <-> s = "".
Proof. destruct s; simpl; split; congruence. Qed.

End StringFacts.

(** ** The query optimizer *)

Section Optimizer.
Import OptimizerSpec.

(** Keeping a match amounts to its being strictly longer than the
    query: a strictly longer string cannot equal it, in any case. *)
Lemma is_better_longer (query m : string) :
  is_better query m = (String.length query <? String.length m)%nat.
Proof.
  unfold is_better.
  destruct (String.length query <? String.length m)%nat eqn:Hlen;
    [|apply andb_false_r].
  rewrite andb_true_r. apply Nat.ltb_lt in Hlen.
  destruct (String.eqb (toLowerCase m) (toLowerCase query)) eqn:Heq;
    [|reflexivity].
  apply String.eqb_eq in Heq. apply (f_equal String.length) in Heq.
  rewrite !length_toLowerCase in Heq. lia.
Qed.


(** The head of the sorted array is the first of the longest elements. *)
Lemma sort_head (l : list string) :
  l <> [] ->
  exists best tail before after,
    sort_by_length_desc l = best :: tail /\
    l = before ++ best :: after /\
    Forall (fun m => (String.length m < String.length best)%nat) before /\
    Forall (fun m => (String.length m <= String.length best)%nat) after.
Proof.
  induction l as [|x l IH]; [congruence|]. intros _.
  destruct l as [|y l'].
  { exists x, [], [], []. repeat split; constructor. }
  destruct IH as (b & t & pre & post & Hs & Hl & Hpre & Hpost); [congruence|].
  change (sort_by_length_desc (x :: y :: l'))
    with (insert_by_length x (sort_by_length_desc (y :: l'))).
  rewrite Hs. cbn [insert_by_length].
  destruct (String.length b <=? String.length x)%nat eqn:Hle.
  - apply Nat.leb_le in Hle.
    exists x, (b :: t), [], (y :: l'). repeat split; [constructor|].
    rewrite Hl. apply Forall_app. split.
    + eapply Forall_impl; [exact Hpre|]. simpl. intros; lia.
    + constructor; [exact Hle|].
      eapply Forall_impl; [exact Hpost|]. simpl. intros; lia.
  - apply Nat.leb_gt in Hle.
    exists b, (insert_by_length x t), (x :: pre), post.
    repeat split; [rewrite Hl; reflexivity| |exact Hpost].
    constructor; [exact Hle|exact Hpre].
Qed.

(** The sort rearranges its input into decreasing lengths. *)
Lemma insert_by_length_perm (x : string) (l : list string) :
  Permutation (insert_by_length x l) (x :: l).
Proof.
  induction l as [|y l IH]; [reflexivity|]. cbn [insert_by_length].
  destruct (String.length y <=? String.length x)%nat; [reflexivity|].
  rewrite IH. apply perm_swap.
Qed.

Lemma sort_by_length_desc_perm (l : list string) :
  Permutation (sort_by_length_desc l) l.
Proof.
  induction l as [|x l IH]; [reflexivity|].
  change (sort_by_length_desc (x :: l))
    with (insert_by_length x (sort_by_length_desc l)).
  rewrite insert_by_length_perm, IH. reflexivity.
Qed.

Lemma insert_by_length_sorted (x : string) (l : list string) :
  Sorted by_length_desc l -> Sorted by_length_desc (insert_by_length x l).
Proof.
  induction 1 as [|y l Hs IH Hhd]; [repeat constructor|].
  cbn [insert_by_length].
  destruct (String.length y <=? String.length x)%nat eqn:Hle.
  - apply Nat.leb_le in Hle. repeat constructor; assumption.
  - apply Nat.leb_gt in Hle. constructor; [exact IH|].
    destruct l as [|z l]; cbn [insert_by_length].
    + constructor. unfold by_length_desc. lia.
    + destruct (String.length z <=? String.length x)%nat;
        constructor; [unfold by_length_desc; lia|].
      inversion Hhd; assumption.
Qed.

Lemma sort_by_length_desc_sorted (l : list string) :
  Sorted by_length_desc (sort_by_length_desc l).
Proof.
  induction l as [|x l IH]; [constructor|].
  apply insert_by_length_sorted. exact IH.
Qed.

Lemma sort_nil (l : list string) : sort_by_length_desc l = [] -> l = [].
Proof.
  destruct l as [|x l]; [reflexivity|]. intros H.
  destruct (sort_head (x :: l)) as (b & t & _ & _ & Hs & _); congruence.
Qed.

(** [expandAbbreviations] returns unless a word of the lower-cased query
    names a property inherited from [Object.prototype]. *)
Lemma expand_from_returns (words rest : list string) (i : nat) (acc : list string) :
  Forall (fun w => abbreviation w <> Inherited) rest ->
  exists terms, expand_from words i rest acc = Returns terms.
Proof.
  intros H. revert i acc. induction H as [|w rest Hw _ IH]; intros i acc.
  - eexists; reflexivity.
  - cbn [expand_from]. destruct (abbreviation w); [apply IH|congruence|apply IH].
Qed.


(** Whenever the optimizer returns for a non-blank query, it returns the
    query or a strictly longer string. *)
Lemma optimize_result_shape (query result : string) :
  is_empty (trim query) = false ->
  optimizeSearchQuery query = Returns result ->
  result = query \/ (String.length query < String.length result)%nat.
Proof.
  intros Ht. unfold optimizeSearchQuery. rewrite Ht.
  destruct (is_empty query) eqn:Hq.
  { apply is_empty_true in Hq. subst. discriminate. }
  cbn [orb]. destruct (has_boolean_operator query); [intros [= <-]; auto|].
  destruct (expandAbbreviations query) as [terms|]; [|discriminate].
  destruct (sort_by_length_desc _) as [|b t] eqn:Hs; intros [= <-]; [auto|].
  right.
  assert (Hin : In b (List.filter (is_better query) (collectMatches terms))).
  { destruct (sort_head (List.filter (is_better query) (collectMatches terms)))
      as (b' & t' & pre & post & Hs' & Hl & _).
    - intros Hnil. rewrite Hnil in Hs. discriminate.
    - rewrite Hs in Hs'. injection Hs' as <- <-. rewrite Hl.
      apply in_or_app. right. left. reflexivity. }
  apply filter_In in Hin as [_ Hb]. rewrite is_better_longer in Hb.
  apply Nat.ltb_lt in Hb. exact Hb.
Qed.

End Optimizer.

Section OptimizerClaims.
Import OptimizerSpec.

Example split_ws_blanks : split_ws " a  b " = [""; "a"; "b"; ""].
Proof. reflexivity. Qed.

Example expand_swe : expandAbbreviations "swe" = Returns ["swe"; "software engineer"].
Proof. reflexivity. Qed.

Example optimize_swe : optimizeSearchQuery "swe" = Returns "software developer".
Proof. reflexivity. Qed.

Example optimize_frontend_dev :
  optimizeSearchQuery "frontend dev" = Returns "frontend development".
Proof. reflexivity. Qed.

Example optimize_blank : optimizeSearchQuery "   " = Returns "".
Proof. reflexivity. Qed.

(** C8, as amended. For every input that is empty or contains the text
    " OR " or " AND ", the operator in upper case with one blank on each
    side, [optimizeSearchQuery] returns the input unchanged. *)
Theorem optimize_noop (query : string) :
  query = "" \/ includes query " OR " = true \/ includes query " AND " = true ->
  optimizeSearchQuery query = Returns query.
Proof.
  intros [->|Hop]; [reflexivity|].
  assert (Hnb : is_empty (trim query) = false).
  { destruct Hop as [H|H]; eapply includes_not_blank; eauto. }
  assert (Hne : is_empty query = false).
  { destruct query; [discriminate Hnb|reflexivity]. }
  unfold optimizeSearchQuery, has_boolean_operator.
  rewrite Hne, Hnb. cbn [orb].
  destruct Hop as [-> | ->]; [reflexivity|].
  rewrite orb_true_r. reflexivity.
Qed.

Lemma optimize_noop_witness :
  optimizeSearchQuery "backend engineer OR pm" = Returns "backend engineer OR pm".
Proof. apply optimize_noop. right. left. reflexivity. Defined.

(** C8, the claim as stated fails: the queries [pm OR] and [dev OR pm]
    written with tabs contain the operator OR, but not with a blank on
    each side, which is what the code looks for; both are rewritten. *)
Lemma optimize_rewrites_operator_counterexample :
  let tab := String "009"%char "" in
  let query1 := "pm OR" in
  let query2 := "dev" +:+ tab +:+ "OR" +:+ tab +:+ "pm" in
  (includes query1 "OR" = true /\
   optimizeSearchQuery query1 = Returns "product manager or" /\
   optimizeSearchQuery query1 <> Returns query1) /\
  (includes query2 "OR" = true /\
   optimizeSearchQuery query2 = Returns "dev or product manager" /\
   optimizeSearchQuery query2 <> Returns query2).
Proof.
  cbn zeta. split; (split; [reflexivity|]); (split; [reflexivity|]);
    vm_compute; discriminate.
Qed.




(** C10. The claim fails on a slip of the code: for the non-blank query
    [constructor] the lookup [ABBREVIATIONS[word]] finds the inherited
    [Object.prototype.constructor], the call of its [forEach] throws, and
    the optimizer returns nothing at all. *)
Theorem optimize_throws_on_inherited_name :
  is_empty (trim "constructor") = false /\
  abbreviation "constructor" = Inherited /\
  optimizeSearchQuery "constructor" = Throws.
Proof. repeat split; reflexivity. Qed.

End OptimizerClaims.

(** ** The search fingerprint *)

Section Fingerprint.

(** Expose the first character of an appended text. *)
Ltac push_app H :=
  change (String.append "_") with (String "_"%char) in H;
  repeat first [rewrite app_Empty in H | rewrite app_String in H].

Lemma includes_underscore_cons (c : ascii) (r : string) :
  includes (String c r) "_" = false ->
  c <> "_"%char /\ includes r "_" = false.
Proof.
  cbn [includes String.prefix]. intros [H1 H2]%orb_false_elim. split; [|exact H2].
  intros ->. simpl in H1. destruct r; discriminate.
Qed.

Lemma includes_underscore_app (x y : string) :
  includes (x +:+ String "_"%char y) "_" = true.
Proof.
  induction x as [|c x IH].
  - destruct y; reflexivity.
  - rewrite app_String. cbn [includes]. rewrite IH. apply orb_true_r.
Qed.

(** A text without underscore is cut off at the first underscore. *)
Lemma cut_first (a a' r r' : string) :
  includes a "_" = false -> includes a' "_" = false ->
  a +:+ "_" +:+ r = a' +:+ "_" +:+ r' -> a = a' /\ r = r'.
Proof.
  revert a'. induction a as [|c a IH]; intros [|c' a'] Ha Ha' Heq;
    push_app Heq.
  - injection Heq as ->. auto.
  - apply includes_underscore_cons in Ha' as [Hc _].
    injection Heq as Hc' _. congruence.
  - apply includes_underscore_cons in Ha as [Hc _].
    injection Heq as Hc' _. congruence.
  - apply includes_underscore_cons in Ha as [_ Ha].
    apply includes_underscore_cons in Ha' as [_ Ha'].
    injection Heq as -> Heq.
    destruct (IH a' Ha Ha' Heq) as [-> ->]. auto.
Qed.

(** A text without underscore is cut off at the last underscore. *)
Lemma cut_last (j j' d d' : string) :
  includes d "_" = false -> includes d' "_" = false ->
  j +:+ "_" +:+ d = j' +:+ "_" +:+ d' -> j = j' /\ d = d'.
Proof.
  intros Hd Hd'. revert j'. induction j as [|c j IH]; intros [|c' j'] Heq.
  - push_app Heq. injection Heq as ->. auto.
  - push_app Heq. injection Heq as _ Heq.
    rewrite Heq, includes_underscore_app in Hd. discriminate.
  - push_app Heq. injection Heq as _ Heq.
    rewrite <- Heq, includes_underscore_app in Hd'. discriminate.
  - rewrite !app_String in Heq. injection Heq as -> Heq.
    destruct (IH j' Heq) as [-> ->]. auto.
Qed.

Lemma pretty_N_go_underscore (x : N) (s : string) :
  includes s "_" = false -> includes (pretty_N_go x s) "_" = false.
Proof.
  revert s. induction (N.lt_wf_0 x) as [x _ IH]; intros s Hs.
  destruct (decide (x = 0)%N) as [->|Hx]; [exact Hs|].
  rewrite pretty_N_go_step by lia. apply IH; [apply N.div_lt; lia|].
  unfold pretty_N_char. repeat case_match; cbn; exact Hs.
Qed.

(** The decimal rendering of a page number holds no underscore. *)
Lemma pretty_Z_underscore (z : Z) : includes (pretty z) "_" = false.
Proof.
  assert (HN : forall n : N, includes (pretty n) "_" = false).
  { intros n. unfold pretty, pretty_N. case_decide; [reflexivity|].
    apply pretty_N_go_underscore. reflexivity. }
  destruct z as [|q|q]; [reflexivity|apply HN|].
  unfold pretty, pretty_Z. rewrite app_String, app_Empty.
  cbn [includes String.prefix]. cbn. apply HN.
Qed.

(** C4, as amended. Parameter tuples whose four fields are equal after
    the defaults of the key (absent text reads as empty, absent or zero
    page as 1) have the same fingerprint; conversely, when neither
    title nor location holds an underscore, tuples with the same
    fingerprint have these four fields equal. *)
Theorem cache_key_fields (p1 p2 : JobSearchParams) :
  (key_fields p1 = key_fields p2 ->
   getSearchCacheKey p1 = getSearchCacheKey p2) /\
  (includes (or_empty (title p1)) "_" = false ->
   includes (or_empty (location p1)) "_" = false ->
   includes (or_empty (title p2)) "_" = false ->
   includes (or_empty (location p2)) "_" = false ->
   getSearchCacheKey p1 = getSearchCacheKey p2 ->
   key_fields p1 = key_fields p2).
Proof.
  unfold key_fields, getSearchCacheKey. split.
  - intros [= -> -> -> ->]. reflexivity.
  - intros Ht1 Hl1 Ht2 Hl2 Heq.
    apply cut_first in Heq as [-> Heq]; [|assumption..].
    apply cut_first in Heq as [-> Heq]; [|assumption..].
    apply cut_last in Heq as [-> Heq]; [|apply pretty_Z_underscore..].
    apply (inj pretty) in Heq. rewrite Heq. reflexivity.
Qed.

Lemma cache_key_fields_witness :
  let p1 := {| title := Some "frontend dev"; location := None;
               job_type := Some "full_time"; page := None;
               results_per_page := Some 10 |} in
  let p2 := {| title := Some "frontend dev"; location := Some "";
               job_type := Some "full_time"; page := Some 1;
               results_per_page := Some 20 |} in
  getSearchCacheKey p1 = "frontend dev__full_time_1" /\
  getSearchCacheKey p1 = getSearchCacheKey p2 /\
  key_fields p1 = key_fields p2.
Proof.
  cbn zeta. split; [reflexivity|]. split; [reflexivity|].
  apply cache_key_fields; reflexivity.
Defined.

(** C4, the claim as stated fails: two tuples that differ in title and
    in location have the same fingerprint. *)
Lemma cache_key_collision_counterexample :
  let p1 := {| title := Some "a_b"; location := Some "c";
               job_type := Some ""; page := Some 1;
               results_per_page := Some 10 |} in
  let p2 := {| title := Some "a"; location := Some "b_c";
               job_type := Some ""; page := Some 1;
               results_per_page := Some 10 |} in
  getSearchCacheKey p1 = getSearchCacheKey p2 /\
  title p1 <> title p2 /\ location p1 <> location p2.
Proof. cbn zeta. split; [reflexivity|]. split; discriminate. Qed.

End Fingerprint.

(** ** Document references and accepted writes *)

Section DocumentPaths.

Lemma prefix_slash (s : string) :
  String.prefix "//" s = true -> String.prefix "/" s = true.
Proof.
  destruct s as [|c s]; cbn [String.prefix]; [auto|].
  destruct (ascii_dec "/" c); [|discriminate]. intros _. destruct s; reflexivity.
Qed.

Lemma includes_double_slash (s : string) :
  includes s "/" = false -> includes s "//" = false.
Proof.
  induction s as [|c s IH]; [reflexivity|]. cbn [includes].
  intros [Hp Hi]%orb_false_elim. rewrite (IH Hi), orb_false_r.
  destruct (String.prefix "//" (String c s)) eqn:H; [|reflexivity].
  apply prefix_slash in H. congruence.
Qed.

Lemma split_on_absent (s : string) :
  includes s "/" = false -> split_on "/" s = [s].
Proof.
  induction s as [|c s IH]; [reflexivity|]. cbn [includes].
  intros [Hp Hi]%orb_false_elim. cbn [split_on]. rewrite (IH Hi).
  destruct (Ascii.eqb c "/") eqn:Hc; [|reflexivity].
  apply Ascii.eqb_eq in Hc. subst c. cbn [String.prefix] in Hp.
  destruct (ascii_dec "/" "/"); [|congruence]. destruct s; discriminate.
Qed.

(** The name of a document is its own reference. *)
Lemma doc_document_id (id : string) :
  is_document_id id = true -> doc id = Returns id.
Proof.
  unfold is_document_id. intros H.
  do 4 (apply andb_prop in H as [H _]). apply andb_prop in H as [Hne Hs].
  apply negb_true_iff in Hne, Hs. unfold doc, path_segments.
  rewrite (includes_double_slash id Hs), (split_on_absent id Hs).
  cbn [List.filter]. rewrite Hne. reflexivity.
Qed.

Lemma storable_accepted (job : JobListing) :
  storable job = true -> job_write_accepted job = true.
Proof.
  unfold storable, job_write_accepted. intros [Hid ->]%andb_prop.
  rewrite (doc_document_id _ Hid). reflexivity.
Qed.

Lemma storable_all_accepted (js : list JobListing) :
  forallb storable js = true -> forallb job_write_accepted js = true.
Proof.
  induction js as [|j js IH]; [reflexivity|]. cbn [forallb].
  intros [Hj Hjs]%andb_prop. rewrite (storable_accepted j Hj), (IH Hjs).
  reflexivity.
Qed.

End DocumentPaths.

(** ** The cache store adapter *)

Section CacheStore.
Import Samples.

Example sanitize_listing42 :
  job_rest (sanitizeJobForFirestore listing42)
  = [("company", JObj [("display_name", JStr "Acme")]); ("salary_min", JNum 50000)].
Proof. reflexivity. Qed.

Lemma getCachedJob_spec (jobId : string) (e : Env) (w : World) :
  store_ok e GetDoc = true ->
  getCachedJob jobId e w =
    (Returns
       (match cachedJobs w !! jobId with
        | Some d =>
            match job_createdAt d with
            | Some t => if t + DEFAULT_EXPIRATION_MS <? now e then None else Some d
            | None => Some d
            end
        | None => None
        end), w).
Proof.
  intros Hok. unfold getCachedJob, try_catch, bind, getJobDoc, ask, ret.
  rewrite Hok. destruct (cachedJobs w !! jobId) as [d|]; [|reflexivity].
  destruct (job_createdAt d) as [t|]; [|reflexivity].
  destruct (t + DEFAULT_EXPIRATION_MS <? now e); reflexivity.
Qed.

(** [getCachedJob] never throws and never writes. *)
Lemma getCachedJob_reads (jobId : string) (e : Env) (w : World) :
  exists r, getCachedJob jobId e w = (Returns r, w).
Proof.
  destruct (store_ok e GetDoc) eqn:Hok.
  - rewrite getCachedJob_spec by exact Hok. eauto.
  - unfold getCachedJob, try_catch, bind, getJobDoc, ret. rewrite Hok. eauto.
Qed.

(** C7. A listing whose cache timestamp is [T] is returned by
    [getCachedJob] one second before [T] + 20 days and is absent one
    second after: expiry is evaluated when the listing is read. *)
Theorem getCachedJob_expiry_boundary
    (jobId : string) (job : JobListing) (T : Z) (e : Env) (w : World) :
  store_ok e GetDoc = true ->
  cachedJobs w !! jobId = Some job ->
  job_createdAt job = Some T ->
  (now e = T + 20 * day - 1000 ->
   getCachedJob jobId e w = (Returns (Some job), w)) /\
  (now e = T + 20 * day + 1000 ->
   getCachedJob jobId e w = (Returns None, w)).
Proof.
  intros Hok Hjob HT. rewrite getCachedJob_spec by exact Hok.
  rewrite Hjob, HT. unfold DEFAULT_EXPIRATION_MS, day.
  split; intros ->.
  - rewrite (proj2 (Z.ltb_ge _ _)) by lia. reflexivity.
  - rewrite (proj2 (Z.ltb_lt _ _)) by lia. reflexivity.
Qed.

Lemma getCachedJob_expiry_boundary_witness :
  let w := world_of {[ "42" := cached42 ]} in
  getCachedJob "42" (env_at (20 * day - 1000) NetworkError store_up) w
  = (Returns (Some cached42), w) /\
  getCachedJob "42" (env_at (20 * day + 1000) NetworkError store_up) w
  = (Returns None, w).
Proof.
  split.
  - apply (getCachedJob_expiry_boundary "42" cached42 0); reflexivity.
  - apply (getCachedJob_expiry_boundary "42" cached42 0); reflexivity.
Defined.

Lemma read_batch_spec (e : Env) (w : World) (batch : list string)
    (acc : list JobListing) :
  store_ok e GetDoc = true ->
  read_batch batch acc e w = (Returns (acc ++ omap (valid_listing w) batch), w).
Proof.
  intros Hok. revert acc. induction batch as [|jobId r IH]; intros acc.
  - cbn. rewrite app_nil_r. reflexivity.
  - cbn [read_batch omap list_omap]. unfold bind at 1, getJobDoc. rewrite Hok.
    unfold valid_listing at 1.
    destruct (cachedJobs w !! jobId) as [d|]; [|apply IH].
    destruct (truthy (job_isValid d)); [|apply IH].
    rewrite IH, <- app_assoc. reflexivity.
Qed.

(** With enough rounds the batches of ten cover the list from [i] on. *)
Lemma read_batches_spec (e : Env) (w : World) (jobIds : list string)
    (rounds i : nat) (acc : list JobListing) :
  store_ok e GetDoc = true ->
  (length jobIds <= i + 10 * rounds)%nat ->
  read_batches rounds i jobIds acc e w
  = (Returns (acc ++ omap (valid_listing w) (drop i jobIds)), w).
Proof.
  intros Hok. revert i acc. induction rounds as [|rounds IH]; intros i acc Hlen.
  - cbn. rewrite drop_ge by lia. cbn. rewrite app_nil_r. reflexivity.
  - cbn [read_batches]. destruct (i <? length jobIds)%nat eqn:Hi.
    + unfold bind. rewrite read_batch_spec by exact Hok.
      rewrite IH by lia. rewrite <- app_assoc, <- omap_app.
      rewrite <- (take_drop 10 (drop i jobIds)) at 2.
      rewrite drop_drop. reflexivity.
    + apply Nat.ltb_ge in Hi. cbn. rewrite drop_ge by lia. cbn.
      rewrite app_nil_r. reflexivity.
Qed.



Lemma job_writes_defaults (t : Z) (jobs : list JobListing) (w : World)
    (jobId : string) :
  (exists d, cachedJobs w !! jobId = Some d /\ has_defaults t d) \/
  (exists job, In job jobs /\ job_id job = jobId) ->
  exists d, cachedJobs (foldl apply_write w (job_writes t jobs)) !! jobId = Some d
            /\ has_defaults t d.
Proof.
  revert w. induction jobs as [|j jobs IH]; intros w H.
  - destruct H as [H|(job & [] & _)]. exact H.
  - cbn [job_writes map foldl]. apply IH. cbn [apply_write with_jobs cachedJobs].
    destruct (decide (job_id j = jobId)) as [<-|Hne].
    + left. eexists. rewrite lookup_insert_eq. split; [reflexivity|].
      repeat split.
    + destruct H as [(d & Hd & Hdef)|(job & [->|Hin] & Hid)].
      * left. exists d. rewrite lookup_insert_ne by exact Hne. auto.
      * congruence.
      * right. eauto.
Qed.

(** Listings that are not part of the search result keep their document. *)
Lemma job_writes_frame (t : Z) (jobs : list JobListing) (w : World)
    (jobId : string) :
  Forall (fun job => job_id job <> jobId) jobs ->
  cachedJobs (foldl apply_write w (job_writes t jobs)) !! jobId
  = cachedJobs w !! jobId.
Proof.
  intros H. revert w. induction H as [|j jobs Hj _ IH]; intros w; [reflexivity|].
  cbn [job_writes map foldl]. unfold job_writes in IH. rewrite IH.
  cbn [apply_write with_jobs cachedJobs]. apply lookup_insert_ne. exact Hj.
Qed.

(** C1, as amended. When the cache key is the name of a document, the
    store client accepts the listings (fewer than 500, one write batch)
    and the store accepts the commit, every listing written by the
    search-result cache write gets the default verification fields
    (valid, no verified-at, zero attempts) and a fresh cache timestamp,
    whether or not a listing with that id was stored before. *)
Theorem cacheSearchResults_sets_defaults
    (params : JobSearchParams) (jobs : list JobListing) (totalJobs : Z)
    (totalPages : option Z) (job : JobListing) (e : Env) (w : World) :
  is_document_id (getSearchCacheKey params) = true ->
  forallb storable jobs = true ->
  (length jobs < 500)%nat ->
  store_ok e BatchCommit = true ->
  In job jobs ->
  exists w' d,
    cacheSearchResults params jobs totalJobs totalPages e w = (Returns true, w') /\
    cachedJobs w' !! job_id job = Some d /\
    job_isValid d = Some true /\
    job_verifiedAt d = None /\
    job_verificationAttempts d = Some 0 /\
    job_createdAt d = Some (now e).
Proof.
  intros Hdoc%doc_document_id Hjobs _ Hok Hin.
  unfold cacheSearchResults, try_catch, bind, lift, ask, commit, ret.
  cbn zeta. rewrite Hdoc, (storable_all_accepted jobs Hjobs), Hok.
  cbn [foldl apply_write].
  destruct (job_writes_defaults (now e) jobs
              (with_searches w
                 (<[getSearchCacheKey params :=
                      {| cs_params := params; cs_jobIds := map job_id jobs;
                         cs_totalJobs := totalJobs; cs_totalPages := totalPages;
                         cs_createdAt := now e |}]> (cachedSearchResults w)))
              (job_id job))
    as (d & Hd & Ht & Hv & Hi & Ha); [right; eauto|].
  eexists _, d. split; [reflexivity|]. auto.
Qed.

Lemma cacheSearchResults_sets_defaults_witness :
  exists w' d,
    cacheSearchResults frontend_search [listing42] 1 (Some 1)
      (env_at (5 * day) NetworkError store_up)
      (world_of {[ "42" := verified42 ]}) = (Returns true, w') /\
    cachedJobs w' !! "42" = Some d /\
    job_isValid d = Some true /\
    job_verifiedAt d = None /\
    job_verificationAttempts d = Some 0 /\
    job_createdAt d = Some (5 * day).
Proof.
  apply (cacheSearchResults_sets_defaults frontend_search [listing42] 1
           (Some 1) listing42 (env_at (5 * day) NetworkError store_up)
           (world_of {[ "42" := verified42 ]})).
  - reflexivity.
  - reflexivity.
  - cbn. lia.
  - reflexivity.
  - left. reflexivity.
Defined.

(** C1, the claim as stated fails: a listing stored as invalid, verified
    at time 1000 by three attempts, is valid again, never verified and
    at zero attempts after it appears in a new search. *)
Lemma cacheSearchResults_resets_counterexample :
  let w := world_of {[ "42" := verified42 ]} in
  let w' := snd (cacheSearchResults frontend_search [listing42] 1 (Some 1)
                   (env_at (5 * day) NetworkError store_up) w) in
  (job_isValid <$> cachedJobs w !! "42" = Some (Some false) /\
   job_verifiedAt <$> cachedJobs w !! "42" = Some (Some 1000) /\
   job_verificationAttempts <$> cachedJobs w !! "42" = Some (Some 3)) /\
  (job_isValid <$> cachedJobs w' !! "42" = Some (Some true) /\
   job_verifiedAt <$> cachedJobs w' !! "42" = Some None /\
   job_verificationAttempts <$> cachedJobs w' !! "42" = Some (Some 0)).
Proof. cbn zeta. repeat split; vm_compute; reflexivity. Qed.

End CacheStore.

(** ** The verification engine *)

Section Verification.
Import Samples.

(** A call of [updateJobValidity] returns, and leaves exactly its own
    record in the trace. *)
Lemma updateJobValidity_trace (jobId : string) (b : bool) (e : Env) (w : World) :
  exists r w',
    updateJobValidity jobId b e w = (Returns r, w') /\
    trace w' = trace w ++ [ValidityUpdate jobId b].
Proof.
  unfold updateJobValidity, bind, emit, try_catch, getJobDoc, updateJobDoc, ask, ret.
  destruct (store_ok e GetDoc);
    [|eexists _, _; split; reflexivity].
  destruct (store_ok e UpdateDoc);
    [|eexists _, _; split; reflexivity].
  cbn [cachedJobs with_event].
  destruct (cachedJobs w !! jobId); eexists _, _; split; reflexivity.
Qed.

(** C5. When the basic probe of a listing throws or times out,
    [verifyJobValidity] returns normally (with [true]),
    [updateJobValidity] is not called, and the stored listings, with
    their validity flag, verified-at and attempt count, are unchanged. *)
Theorem verifyJobValidity_fails_open (job : JobListing) (e : Env) (w : World) :
  network e MHead (job_redirect_url job) = NetworkError ->
  exists w',
    verifyJobValidity job e w = (Returns true, w') /\
    cachedJobs w' = cachedJobs w /\
    (forall jobId b,
       In (ValidityUpdate jobId b) (trace w') ->
       In (ValidityUpdate jobId b) (trace w)).
Proof.
  intros Hnet. unfold verifyJobValidity, try_catch, bind, fetch, ret.
  destruct (is_empty (job_redirect_url job)); [eauto|].
  rewrite Hnet. eexists. split; [reflexivity|]. split; [reflexivity|].
  cbn [trace with_event]. intros jobId b [H|[H|[]]]%in_app_or; [exact H|discriminate].
Qed.

Lemma verifyJobValidity_fails_open_witness :
  exists w',
    verifyJobValidity verified42 (env_at (12 * day) NetworkError store_up)
      (world_of {[ "42" := verified42 ]}) = (Returns true, w') /\
    cachedJobs w' = {[ "42" := verified42 ]} /\
    (forall jobId b, In (ValidityUpdate jobId b) (trace w') -> False).
Proof.
  destruct (verifyJobValidity_fails_open verified42
              (env_at (12 * day) NetworkError store_up)
              (world_of {[ "42" := verified42 ]})) as (w' & Hr & Hjobs & Htrace).
  - reflexivity.
  - exists w'. split; [exact Hr|]. split; [exact Hjobs|].
    intros jobId b H. exact (Htrace jobId b H).
Defined.

(** The advanced check fails open in the same way. *)
Lemma performAdvancedVerification_fails_open (job : JobListing) (e : Env) (w : World) :
  network e MGet (job_redirect_url job) = NetworkError ->
  exists w',
    performAdvancedVerification job e w = (Returns true, w') /\
    cachedJobs w' = cachedJobs w.
Proof.
  intros Hnet. unfold performAdvancedVerification, try_catch, bind, fetch, ret.
  destruct (is_empty (job_redirect_url job)); [eauto|].
  rewrite Hnet. eauto.
Qed.

(** The basic check of a listing with a redirect URL starts with the
    existence probe and never fetches the page body. *)
Lemma verifyJobValidity_trace (job : JobListing) (e : Env) (w : World) :
  is_empty (job_redirect_url job) = false ->
  exists r w' events,
    verifyJobValidity job e w = (Returns r, w') /\
    trace w' = trace w ++ Fetched MHead (job_redirect_url job) :: events /\
    (forall url, ~ In (Fetched MGet url) events).
Proof.
  intros Hurl. unfold verifyJobValidity, try_catch, bind, fetch, ret.
  rewrite Hurl.
  destruct (network e MHead (job_redirect_url job)) as [|status body].
  - exists true. eexists _, []. repeat split. intros url [].
  - cbn [fst].
    destruct (updateJobValidity_trace (job_id job)
                (response_ok status && negb (bool_decide (status ∈ [404; 410])))
                e (with_event w (Fetched MHead (job_redirect_url job))))
      as (r & w' & -> & Ht).
    eexists _, w', [_]. split; [reflexivity|]. split.
    + rewrite Ht. cbn [trace with_event]. rewrite <- app_assoc. reflexivity.
    + intros url [H|[]]. discriminate.
Qed.

Lemma performAdvancedVerification_returns (job : JobListing) (e : Env) (w : World) :
  exists r w' events,
    performAdvancedVerification job e w = (Returns r, w') /\
    trace w' = trace w ++ events.
Proof.
  unfold performAdvancedVerification, try_catch, bind, fetch, ret.
  destruct (is_empty (job_redirect_url job)).
  { exists true, w, []. rewrite app_nil_r. auto. }
  destruct (network e MGet (job_redirect_url job)) as [|status text].
  { eexists true, _, [_]. split; reflexivity. }
  set (w1 := with_event w (Fetched MGet (job_redirect_url job))).
  assert (Hstep : forall b,
    exists r w', updateJobValidity (job_id job) b e w1 = (Returns r, w') /\
                 trace w' = trace w ++ [Fetched MGet (job_redirect_url job);
                                        ValidityUpdate (job_id job) b]).
  { intros b. destruct (updateJobValidity_trace (job_id job) b e w1)
      as (r & w' & Hr & Ht).
    exists r, w'. split; [exact Hr|]. rewrite Ht.
    cbn [w1 trace with_event]. rewrite <- app_assoc. reflexivity. }
  destruct (negb (response_ok status)).
  { destruct (Hstep false) as (r & w' & -> & Ht). eauto. }
  destruct (existsb _ closedPhrases).
  { destruct (Hstep false) as (r & w' & -> & Ht). eauto. }
  destruct (Hstep (existsb (includes (toLowerCase text)) applicationFormIndicators))
    as (r & w' & -> & Ht). eauto.
Qed.

(** [verifyJobById] on a stored, unexpired listing with a redirect URL. *)
Lemma verifyJobById_gated
    (jobId : string) (job : JobListing) (T : Z) (e : Env) (w : World) :
  store_ok e GetDoc = true ->
  cachedJobs w !! jobId = Some job ->
  job_createdAt job = Some T ->
  now e <= T + DEFAULT_EXPIRATION_MS ->
  is_empty (job_redirect_url job) = false ->
  exists r w' events,
    verifyJobById jobId e w = (Returns r, w') /\
    trace w' = trace w ++ events /\
    (now e - T < TEN_DAYS_MS -> r = true /\ w' = w /\ events = []) /\
    (TEN_DAYS_MS <= now e - T ->
     head events = Some (Fetched MHead (job_redirect_url job))) /\
    (forall url, In (Fetched MGet url) events -> FIFTEEN_DAYS_MS < now e - T).
Proof.
  intros Hok Hjob HT Hlive Hurl.
  unfold verifyJobById, try_catch. unfold bind at 1.
  rewrite getCachedJob_spec by exact Hok. rewrite Hjob, HT.
  rewrite (proj2 (Z.ltb_ge _ _)) by lia.
  unfold bind at 1, ask. unfold jobAge. rewrite HT.
  cbn [younger_than finite_and_older_than].
  destruct (now e - T <? TEN_DAYS_MS) eqn:Hyoung.
  { apply Z.ltb_lt in Hyoung. exists true, w, []. rewrite app_nil_r.
    repeat split; try reflexivity; [lia|intros url []]. }
  apply Z.ltb_ge in Hyoung. unfold bind.
  destruct (verifyJobValidity_trace job e w Hurl)
    as (r & w1 & evs & -> & Ht & Hno).
  destruct r; cbn [negb].
  - destruct (FIFTEEN_DAYS_MS <? now e - T) eqn:Hold.
    + apply Z.ltb_lt in Hold.
      destruct (performAdvancedVerification_returns job e w1)
        as (r2 & w2 & evs2 & -> & Ht2).
      exists r2, w2, (Fetched MHead (job_redirect_url job) :: evs ++ evs2).
      split; [reflexivity|]. split.
      { rewrite Ht2, Ht, <- app_assoc. reflexivity. }
      split; [lia|]. split; [reflexivity|]. intros; exact Hold.
    + exists true, w1, (Fetched MHead (job_redirect_url job) :: evs).
      split; [reflexivity|]. split; [exact Ht|]. split; [lia|].
      split; [reflexivity|]. intros url [H|H]; [discriminate|].
      destruct (Hno url H).
  - exists false, w1, (Fetched MHead (job_redirect_url job) :: evs).
    split; [reflexivity|]. split; [exact Ht|]. split; [lia|].
    split; [reflexivity|]. intros url [H|H]; [discriminate|].
    destruct (Hno url H).
Qed.

(** C2, as amended. The on-demand verify endpoint applies the age gate
    of [verifyJobById] like any other caller: for a stored, unexpired
    listing with a redirect URL it answers "valid" without any outbound
    call and without touching the store when the listing is younger
    than 10 days; from 10 days on it performs the basic existence probe;
    and it fetches the page body for the advanced check only when the
    listing is older than 15 days. *)
Theorem verify_endpoint_age_gates
    (jobId : string) (job : JobListing) (T : Z) (e : Env) (w : World) :
  is_empty jobId = false ->
  store_ok e GetDoc = true ->
  cachedJobs w !! jobId = Some job ->
  job_createdAt job = Some T ->
  now e <= T + DEFAULT_EXPIRATION_MS ->
  is_empty (job_redirect_url job) = false ->
  exists body w' events,
    VerifyRoute.GET jobId e w = (Returns (VerifyRoute.JsonOk body), w') /\
    trace w' = trace w ++ events /\
    (now e - T < TEN_DAYS_MS ->
     VerifyRoute.vs_isValid body = true /\ w' = w /\ events = []) /\
    (TEN_DAYS_MS <= now e - T ->
     head events = Some (Fetched MHead (job_redirect_url job))) /\
    (forall url, In (Fetched MGet url) events -> FIFTEEN_DAYS_MS < now e - T).
Proof.
  intros Hid Hok Hjob HT Hlive Hurl.
  unfold VerifyRoute.GET, try_catch. rewrite Hid. unfold bind at 1.
  rewrite getCachedJob_spec by exact Hok. rewrite Hjob, HT.
  rewrite (proj2 (Z.ltb_ge _ _)) by lia.
  unfold bind at 1.
  destruct (verifyJobById_gated jobId job T e w Hok Hjob HT Hlive Hurl)
    as (r & w' & events & -> & Ht & Hyoung & Hbasic & Hadv).
  unfold bind, ret.
  destruct (getCachedJob_reads jobId e w') as (updated & ->).
  eexists _, w', events. split; [reflexivity|]. split; [exact Ht|].
  split; [|split; assumption].
  intros Hy. destruct (Hyoung Hy) as (-> & -> & ->). auto.
Qed.

Lemma verify_endpoint_age_gates_witness :
  exists body w' events,
    VerifyRoute.GET "42" (env_at (12 * day) (Response 404 "") store_up)
      (world_of {[ "42" := cached42 ]})
    = (Returns (VerifyRoute.JsonOk body), w') /\
    trace w' = events /\
    head events = Some (Fetched MHead "https://jobs.example/42") /\
    (forall url, In (Fetched MGet url) events -> False).
Proof.
  destruct (verify_endpoint_age_gates "42" cached42 0
              (env_at (12 * day) (Response 404 "") store_up)
              (world_of {[ "42" := cached42 ]}))
    as (body & w' & events & Hr & Ht & _ & Hbasic & Hadv);
    try reflexivity.
  - vm_compute. discriminate.
  - exists body, w', events. split; [exact Hr|]. split; [exact Ht|].
    split; [apply Hbasic; vm_compute; discriminate|].
    intros url H. apply Hadv in H. vm_compute in H. discriminate.
Defined.

(** C2, the claim as stated fails: for a listing cached 5 days ago whose
    URL answers 404, the verify endpoint makes no outbound call at all
    and reports the listing valid. *)
Lemma verify_endpoint_skips_young_counterexample :
  let w := world_of {[ "42" := cached42 ]} in
  let e := env_at (5 * day) (Response 404 "") store_up in
  trace w = [] /\
  VerifyRoute.GET "42" e w
  = (Returns (VerifyRoute.JsonOk
                {| VerifyRoute.vs_isValid := true;
                   VerifyRoute.vs_verifiedAt := None;
                   VerifyRoute.vs_attempts := 0;
                   VerifyRoute.vs_job := Some cached42 |}), w).
Proof. cbn zeta. split; reflexivity. Qed.

End Verification.

(** ** The search orchestrator *)

Section Orchestrator.
Import Samples.

Lemma getCachedSearchResults_reads (params : JobSearchParams) (e : Env) (w : World) :
  exists r, getCachedSearchResults params e w = (Returns r, w).
Proof.
  unfold getCachedSearchResults, try_catch, bind, lift, getSearchDoc, ask, ret.
  cbn zeta. destruct (doc (getSearchCacheKey params)) as [ref|]; [|eauto].
  destruct (store_ok e GetDoc); [|eauto].
  destruct (cachedSearchResults w !! _) as [d|]; [|eauto].
  destruct (_ <? _); eauto.
Qed.

Lemma cache_lookup_reads (rq : JobsRoute.SearchRequest) (e : Env) (w : World) :
  exists r, JobsRoute.cache_lookup rq e w = (Returns r, w).
Proof.
  unfold JobsRoute.cache_lookup. destruct (JobsRoute.rq_skipCache rq).
  - eexists; reflexivity.
  - unfold try_catch.
    destruct (getCachedSearchResults_reads (JobsRoute.params_of rq) e w) as [r ->].
    eauto.
Qed.

(** The cache write returns a boolean whatever the store does: whether
    the batch was filled and its commit accepted.  It writes nothing
    otherwise. *)
Lemma cacheSearchResults_returns (params : JobSearchParams)
    (js : list JobListing) (n : Z) (pages : option Z) (e : Env) (w : World) :
  exists w',
    cacheSearchResults params js n pages e w
    = (Returns (write_accepted params js && store_ok e BatchCommit), w') /\
    trace w' = trace w /\
    (write_accepted params js && store_ok e BatchCommit = false -> w' = w).
Proof.
  unfold cacheSearchResults, write_accepted, try_catch, bind, lift, ask,
    commit, throw, ret.
  cbn zeta. destruct (doc (getSearchCacheKey params)) as [ref|].
  2:{ exists w. auto. }
  destruct (forallb job_write_accepted js).
  2:{ exists w. auto. }
  destruct (store_ok e BatchCommit).
  - eexists. split; [reflexivity|]. split; [|discriminate].
    generalize (SetSearch ref
                  {| cs_params := params; cs_jobIds := map job_id js;
                     cs_totalJobs := n; cs_totalPages := pages;
                     cs_createdAt := now e |} :: job_writes (now e) js).
    intros batch. revert w. induction batch as [|op batch IH]; intros w.
    + reflexivity.
    + cbn [foldl]. rewrite IH. destruct op; reflexivity.
  - exists w. auto.
Qed.




End Orchestrator.

(** * Further properties of the code *)

Import ExpirySweeper StoreFacts.

(** ** Sanitizing before a write *)

Section Sanitizer.

(** Induction on JSON values, through arrays and objects. *)
Lemma json_nested_ind (P : json -> Prop) :
  P JNull -> (forall b, P (JBool b)) -> (forall n, P (JNum n)) ->
  (forall s, P (JStr s)) ->
  (forall items, Forall P items -> P (JArr items)) ->
  (forall members, Forall (fun kv => P kv.2) members -> P (JObj members)) ->
  forall v, P v.
Proof.
  intros Hnull Hbool Hnum Hstr Harr Hobj. fix IH 1. intros [| | | |items|members].
  - exact Hnull.
  - apply Hbool.
  - apply Hnum.
  - apply Hstr.
  - apply Harr. induction items as [|x items IHitems]; constructor.
    + apply IH.
    + exact IHitems.
  - apply Hobj. induction members as [|[k x] members IHm]; constructor.
    + apply IH.
    + exact IHm.
Qed.

Lemma sanitizeObject_no_marker (v : json) :
  has_marker_key (sanitizeObject v) = false.
Proof.
  induction v as [| | | |items IH|members IH] using json_nested_ind;
    try reflexivity.
  - cbn [sanitizeObject has_marker_key].
    induction IH as [|x items Hx _ IHitems]; [reflexivity|].
    cbn [map existsb]. rewrite Hx, IHitems. reflexivity.
  - cbn [sanitizeObject has_marker_key].
    induction IH as [|[k x] members Hx _ IHm]; [reflexivity|].
    cbn [snd] in Hx. destruct (is_dunder k) eqn:Hk; [exact IHm|].
    rewrite Hk, Hx, IHm. reflexivity.
Qed.

Lemma sanitizeObject_clean (v : json) :
  has_marker_key v = false -> sanitizeObject v = v.
Proof.
  induction v as [| | | |items IH|members IH] using json_nested_ind;
    try reflexivity.
  - cbn [sanitizeObject has_marker_key]. intros H. f_equal.
    induction IH as [|x items Hx _ IHitems]; [reflexivity|].
    cbn [existsb] in H. apply orb_false_elim in H as [H1 H2].
    cbn [map]. rewrite Hx, IHitems by assumption. reflexivity.
  - cbn [sanitizeObject has_marker_key]. intros H. f_equal.
    induction IH as [|[k x] members Hx _ IHm]; [reflexivity|].
    cbn [snd] in Hx.
    apply orb_false_elim in H as [H12 H3].
    apply orb_false_elim in H12 as [H1 H2].
    rewrite H1, Hx, IHm by assumption. reflexivity.
Qed.

(** X1. What [sanitizeJobForFirestore] returns holds no key of the marker
    form at any depth of its members, keeps id, title and redirect URL,
    and a listing that holds no such key is returned as it is. *)
Theorem sanitizeJob_strips_all_markers (job : JobListing) :
  has_marker_key (JObj (job_rest (sanitizeJobForFirestore job))) = false /\
  job_id (sanitizeJobForFirestore job) = job_id job /\
  job_title (sanitizeJobForFirestore job) = job_title job /\
  job_redirect_url (sanitizeJobForFirestore job) = job_redirect_url job /\
  (has_marker_key (JObj (job_rest job)) = false ->
   sanitizeJobForFirestore job = job).
Proof.
  unfold sanitizeJobForFirestore.
  pose proof (sanitizeObject_no_marker (JObj (job_rest job))) as Hno.
  pose proof (sanitizeObject_clean (JObj (job_rest job))) as Hclean.
  destruct (sanitizeObject (JObj (job_rest job))) as [| | | | |members] eqn:Hs;
    try (cbn in Hs; discriminate).
  repeat split; try exact Hno.
  intros H. apply Hclean in H. injection H as ->. destruct job; reflexivity.
Qed.

Lemma sanitizeJob_strips_all_markers_witness :
  sanitizeJobForFirestore Samples.cached42 = Samples.cached42.
Proof.
  apply sanitizeJob_strips_all_markers. reflexivity.
Defined.

End Sanitizer.

(** ** Writing and reading back the cache *)

Section CacheRoundTrip.

Lemma same_key_fields_same_key (p1 p2 : JobSearchParams) :
  key_fields p1 = key_fields p2 -> getSearchCacheKey p1 = getSearchCacheKey p2.
Proof.
  unfold key_fields, getSearchCacheKey. intros [= -> -> -> ->]. reflexivity.
Qed.

Lemma job_writes_keep (t : Z) (js : list JobListing) (w : World) :
  let w' := foldl apply_write w (job_writes t js) in
  cachedSearchResults w' = cachedSearchResults w /\
  adzunaRequestsToday w' = adzunaRequestsToday w /\
  lastResetDate w' = lastResetDate w /\
  trace w' = trace w.
Proof.
  cbn zeta. revert w. induction js as [|j js IH]; intros w; [auto|].
  cbn [job_writes map foldl]. unfold job_writes in IH.
  destruct (IH (apply_write w (SetJob (job_id j)
                  (cached_job_document t (sanitizeJobForFirestore j)))))
    as (-> & -> & -> & ->). auto.
Qed.

(** The world a cache write leaves when the store client accepts the key
    and the listings and the store accepts the commit. *)
Lemma cacheSearchResults_commits (params : JobSearchParams)
    (js : list JobListing) (n : Z) (pages : option Z) (e : Env) (w : World)
    (ref : string) :
  doc (getSearchCacheKey params) = Returns ref ->
  forallb job_write_accepted js = true ->
  store_ok e BatchCommit = true ->
  cacheSearchResults params js n pages e w
  = (Returns true,
     foldl apply_write
       (with_searches w
          (<[ref := search_entry params js n pages (now e)]>
             (cachedSearchResults w)))
       (job_writes (now e) js)).
Proof.
  intros Hdoc Hjs Hok.
  unfold cacheSearchResults, try_catch, bind, lift, ask, commit, ret.
  cbn zeta. rewrite Hdoc, Hjs, Hok. reflexivity.
Qed.

(** The search [ui/ux designer] is never cached: its key is not the path
    of a document, [doc] throws, and both the write and the read give up. *)
Example slash_in_title_is_not_cached :
  let params := {| title := Some "ui/ux designer"; location := Some "";
                   job_type := Some ""; page := Some 1;
                   results_per_page := Some 10 |} in
  let e := Samples.env_at (5 * Samples.day) NetworkError Samples.store_up in
  let w := Samples.world_of ∅ in
  getSearchCacheKey params = "ui/ux designer___1" /\
  doc (getSearchCacheKey params) = Throws /\
  cacheSearchResults params [Samples.listing42] 1 (Some 1) e w
  = (Returns false, w) /\
  getCachedSearchResults params e w = (Returns None, w).
Proof. cbn zeta. repeat split; reflexivity. Qed.

Lemma getCachedJobsByIds_reads (jobIds : list string) (e : Env) (w : World) :
  store_ok e GetDoc = true ->
  getCachedJobsByIds jobIds e w = (Returns (omap (valid_listing w) jobIds), w).
Proof.
  intros Hok. unfold getCachedJobsByIds, try_catch.
  rewrite read_batches_spec by (exact Hok || lia). reflexivity.
Qed.

(** With distinct ids, each listing of the batch is found as written. *)
Lemma job_writes_lookup (t : Z) (js : list JobListing) (w : World)
    (job : JobListing) :
  NoDup (map job_id js) -> In job js ->
  cachedJobs (foldl apply_write w (job_writes t js)) !! job_id job
  = Some (stored_as t job).
Proof.
  revert w. induction js as [|j js IH]; intros w Hnd Hin; [destruct Hin|].
  cbn [map] in Hnd. apply NoDup_cons in Hnd as [Hj Hnd].
  cbn [job_writes map foldl]. destruct Hin as [->|Hin].
  - fold (job_writes t js). rewrite job_writes_frame.
    + cbn [apply_write with_jobs cachedJobs]. apply lookup_insert_eq.
    + apply List.Forall_forall. intros j' Hj' Heq. apply Hj.
      rewrite <- Heq. apply list_elem_of_In, in_map, Hj'.
  - apply IH; assumption.
Qed.

(** X2. When the cache key is the name of a document and the store
    client accepts the listings (fewer than 500, one write batch), a
    search result written by [cacheSearchResults] is returned by
    [getCachedSearchResults] for every parameter tuple with the same key
    fields, up to 20 days after the write, whatever was cached under that
    key before: ids in result order, counts and timestamp of this write. *)
Theorem cached_search_round_trip
    (params params' : JobSearchParams) (js : list JobListing) (n : Z)
    (pages : option Z) (e1 e2 : Env) (w : World) :
  is_document_id (getSearchCacheKey params) = true ->
  forallb storable js = true ->
  (length js < 500)%nat ->
  store_ok e1 BatchCommit = true ->
  store_ok e2 GetDoc = true ->
  key_fields params' = key_fields params ->
  now e2 <= now e1 + DEFAULT_EXPIRATION_MS ->
  exists w1,
    cacheSearchResults params js n pages e1 w = (Returns true, w1) /\
    getCachedSearchResults params' e2 w1
    = (Returns (Some (search_entry params js n pages (now e1))), w1).
Proof.
  intros Hdoc%doc_document_id Hjs _ Hc Hr Hkey Hlive. eexists.
  split; [apply (cacheSearchResults_commits _ _ _ _ _ _ _ Hdoc);
          auto using storable_all_accepted|].
  assert (Hk : getSearchCacheKey params' = getSearchCacheKey params).
  { apply same_key_fields_same_key. exact Hkey. }
  unfold getCachedSearchResults, try_catch, bind, lift, getSearchDoc, ask, ret.
  cbn zeta. rewrite Hk, Hdoc, Hr.
  match goal with |- context [foldl apply_write ?w0 (job_writes ?t js)] =>
    destruct (job_writes_keep t js w0) as (-> & _) end.
  cbn [cachedSearchResults with_searches].
  rewrite lookup_insert_eq. cbn [cs_createdAt search_entry].
  rewrite (proj2 (Z.ltb_ge _ _)) by lia. reflexivity.
Qed.

Lemma cached_search_round_trip_witness :
  exists w1,
    cacheSearchResults Samples.frontend_search [Samples.listing42] 1 (Some 1)
      (Samples.env_at (5 * Samples.day) NetworkError Samples.store_up)
      (Samples.world_of ∅) = (Returns true, w1) /\
    getCachedSearchResults
      {| title := Some "frontend dev"; location := None; job_type := None;
         page := None; results_per_page := None |}
      (Samples.env_at (25 * Samples.day) NetworkError Samples.store_up) w1
    = (Returns (Some (search_entry Samples.frontend_search [Samples.listing42]
                        1 (Some 1) (5 * Samples.day))), w1).
Proof.
  apply (cached_search_round_trip Samples.frontend_search);
    first [reflexivity | (cbn; lia) | (vm_compute; discriminate)].
Defined.

Lemma omap_valid_written (t : Z) (js : list JobListing) (w : World) :
  (forall job, In job js ->
     cachedJobs w !! job_id job = Some (stored_as t job)) ->
  omap (valid_listing w) (map job_id js) = map (stored_as t) js.
Proof.
  induction js as [|j js IH]; intros H; [reflexivity|].
  cbn [map omap list_omap]. unfold valid_listing at 1.
  rewrite (H j) by (left; reflexivity). cbn. f_equal.
  apply IH. intros job Hin. apply H. right. exact Hin.
Qed.

(** X3. When the cache key is the name of a document and the store
    client accepts the listings (fewer than 500), whose ids are distinct
    names of documents, the listings written by
    [cacheSearchResults] are all returned by [getCachedJobsByIds] on the
    ids of the cached search, in result order, each as sanitized and
    stamped by the write (valid, never verified, zero attempts). *)
Theorem cached_listings_round_trip
    (params : JobSearchParams) (js : list JobListing) (n : Z)
    (pages : option Z) (e1 e2 : Env) (w : World) :
  is_document_id (getSearchCacheKey params) = true ->
  forallb storable js = true ->
  (length js < 500)%nat ->
  store_ok e1 BatchCommit = true ->
  store_ok e2 GetDoc = true ->
  NoDup (map job_id js) ->
  exists w1,
    cacheSearchResults params js n pages e1 w = (Returns true, w1) /\
    getCachedJobsByIds
      (cs_jobIds (search_entry params js n pages (now e1))) e2 w1
    = (Returns (map (stored_as (now e1)) js), w1).
Proof.
  intros Hdoc%doc_document_id Hjs _ Hc Hr Hnd. eexists.
  split; [apply (cacheSearchResults_commits _ _ _ _ _ _ _ Hdoc);
          auto using storable_all_accepted|].
  rewrite getCachedJobsByIds_reads by exact Hr. cbn [cs_jobIds search_entry].
  rewrite (omap_valid_written (now e1) js); [reflexivity|].
  intros job Hin. apply job_writes_lookup; assumption.
Qed.

Lemma cached_listings_round_trip_witness :
  exists w1,
    cacheSearchResults Samples.frontend_search [Samples.listing42] 1 (Some 1)
      (Samples.env_at (5 * Samples.day) NetworkError Samples.store_up)
      (Samples.world_of {[ "42" := Samples.verified42 ]}) = (Returns true, w1) /\
    getCachedJobsByIds ["42"]
      (Samples.env_at (40 * Samples.day) NetworkError Samples.store_up) w1
    = (Returns [stored_as (5 * Samples.day) Samples.listing42], w1).
Proof.
  apply (cached_listings_round_trip Samples.frontend_search
           [Samples.listing42]).
  - reflexivity.
  - reflexivity.
  - cbn. lia.
  - reflexivity.
  - reflexivity.
  - repeat constructor; set_solver.
Defined.

(** X4. [getCachedSearchResults] never throws and never writes; an entry
    it returns is the one stored in the document that the key of the
    parameters names and is at most 20 days old; when the store does not
    serve the read, or the key is not the path of a document, it reports a
    miss. *)
Theorem getCachedSearchResults_sound
    (params : JobSearchParams) (e : Env) (w : World) :
  exists r,
    getCachedSearchResults params e w = (Returns r, w) /\
    (forall d, r = Some d ->
       exists ref,
         doc (getSearchCacheKey params) = Returns ref /\
         cachedSearchResults w !! ref = Some d /\
         now e <= cs_createdAt d + DEFAULT_EXPIRATION_MS) /\
    (store_ok e GetDoc = false -> r = None) /\
    (doc (getSearchCacheKey params) = Throws -> r = None).
Proof.
  unfold getCachedSearchResults, try_catch, bind, lift, getSearchDoc, ask, ret.
  cbn zeta. destruct (doc (getSearchCacheKey params)) as [ref|].
  2:{ eexists. split; [reflexivity|]. repeat split; discriminate || reflexivity. }
  destruct (store_ok e GetDoc).
  - destruct (cachedSearchResults w !! ref) as [d|] eqn:Hd.
    + destruct (cs_createdAt d + DEFAULT_EXPIRATION_MS <? now e) eqn:Hexp.
      * eexists. split; [reflexivity|]. repeat split; discriminate.
      * apply Z.ltb_ge in Hexp. eexists. split; [reflexivity|].
        split; [|split; discriminate]. intros d' [= <-]. eauto.
    + eexists. split; [reflexivity|]. repeat split; discriminate.
  - eexists. split; [reflexivity|].
    split; [discriminate|]. split; [reflexivity|discriminate].
Qed.

Lemma getCachedSearchResults_sound_witness :
  exists r,
    getCachedSearchResults Samples.frontend_search
      (Samples.env_at Samples.day NetworkError (fun _ => false))
      (Samples.world_of ∅) = (Returns r, Samples.world_of ∅) /\
    r = None.
Proof.
  destruct (getCachedSearchResults_sound Samples.frontend_search
              (Samples.env_at Samples.day NetworkError (fun _ => false))
              (Samples.world_of ∅)) as (r & Hr & _ & Hnone & _).
  exists r. split; [exact Hr|]. apply Hnone. reflexivity.
Defined.

(** X5. A cache write is all-or-nothing and local. It returns [true]
    exactly when the store client accepts the cache key and every listing
    and the store accepts the commit; otherwise it returns [false] and
    leaves the whole store as it was. A write leaves untouched every
    search document but the one its key names and, the listing ids being
    names of documents, every listing whose id is not in the result. *)
Theorem cacheSearchResults_frame
    (params : JobSearchParams) (js : list JobListing) (n : Z)
    (pages : option Z) (e : Env) (w : World) :
  exists w',
    cacheSearchResults params js n pages e w
    = (Returns (write_accepted params js && store_ok e BatchCommit), w') /\
    (write_accepted params js && store_ok e BatchCommit = false -> w' = w) /\
    (forall ref, doc (getSearchCacheKey params) <> Returns ref ->
       cachedSearchResults w' !! ref = cachedSearchResults w !! ref) /\
    (forallb (fun job => is_document_id (job_id job)) js = true ->
     forall jobId, ~ In jobId (map job_id js) ->
       cachedJobs w' !! jobId = cachedJobs w !! jobId).
Proof.
  unfold write_accepted.
  destruct (doc (getSearchCacheKey params)) as [ref|] eqn:Hdoc.
  2:{ exists w. split; [|auto].
      unfold cacheSearchResults, try_catch, bind, lift, ret. cbn zeta.
      rewrite Hdoc. reflexivity. }
  destruct (forallb job_write_accepted js) eqn:Hjs.
  2:{ exists w. split; [|auto].
      unfold cacheSearchResults, try_catch, bind, lift, ask, throw, ret.
      cbn zeta. rewrite Hdoc, Hjs. reflexivity. }
  destruct (store_ok e BatchCommit) eqn:Hok.
  - eexists. split; [apply (cacheSearchResults_commits _ _ _ _ _ _ ref); auto|].
    split; [discriminate|]. split.
    + intros ref' Href.
      match goal with |- context [foldl apply_write ?w0 (job_writes ?t js)] =>
        destruct (job_writes_keep t js w0) as (-> & _) end.
      cbn [cachedSearchResults with_searches]. apply lookup_insert_ne. congruence.
    + intros _ jobId Hnot. rewrite job_writes_frame; [reflexivity|].
      apply List.Forall_forall. intros j Hj Heq. apply Hnot.
      rewrite <- Heq. apply in_map, Hj.
  - exists w. split; [|auto].
    unfold cacheSearchResults, try_catch, bind, lift, ask, commit, ret.
    cbn zeta. rewrite Hdoc, Hjs, Hok. reflexivity.
Qed.

Lemma cacheSearchResults_frame_witness :
  let w := Samples.world_of {[ "42" := Samples.verified42 ]} in
  exists w',
    cacheSearchResults Samples.frontend_search [Samples.listing42] 1 (Some 1)
      (Samples.env_at Samples.day NetworkError Samples.store_up) w
    = (Returns true, w') /\
    cachedJobs w' !! "7" = None.
Proof.
  cbn zeta.
  destruct (cacheSearchResults_frame Samples.frontend_search [Samples.listing42]
              1 (Some 1)
              (Samples.env_at Samples.day NetworkError Samples.store_up)
              (Samples.world_of {[ "42" := Samples.verified42 ]}))
    as (w' & Hr & _ & _ & Hframe).
  exists w'. split; [exact Hr|]. rewrite Hframe; [reflexivity|reflexivity|].
  intros [H|[]]. discriminate H.
Defined.

End CacheRoundTrip.

(** ** Recording a verification outcome *)

Section ValidityUpdates.







End ValidityUpdates.

(** ** The expiry sweeper *)

Section Sweeper.

Lemma lookup_delete_all {A} (refs : list string) (m : gmap string A) (k : string) :
  foldl (fun m jobId => delete jobId m) m refs !! k
  = if bool_decide (k ∈ refs) then None else m !! k.
Proof.
  revert m. induction refs as [|r refs IH]; intros m; [reflexivity|].
  cbn [foldl]. rewrite IH. destruct (decide (k = r)) as [->|Hne].
  - rewrite lookup_delete_eq.
    rewrite (bool_decide_eq_true_2 (r ∈ r :: refs)) by (apply elem_of_cons; auto).
    destruct (bool_decide (r ∈ refs)); reflexivity.
  - rewrite lookup_delete_ne by congruence.
    destruct (bool_decide (k ∈ refs)) eqn:Hin.
    + apply bool_decide_eq_true_1 in Hin.
      rewrite bool_decide_eq_true_2 by (apply elem_of_cons; auto). reflexivity.
    + apply bool_decide_eq_false_1 in Hin.
      rewrite bool_decide_eq_false_2; [reflexivity|].
      intros [?|?]%elem_of_cons; auto.
Qed.

Lemma size_delete_all {A} (refs : list string) (m : gmap string A) :
  NoDup refs -> (forall r, r ∈ refs -> is_Some (m !! r)) ->
  (size (foldl (fun m jobId => delete jobId m) m refs) + length refs
   = size m)%nat.
Proof.
  intros Hnd. revert m. induction Hnd as [|r refs Hr Hnd IH]; intros m Hin.
  - cbn. lia.
  - cbn [foldl length]. rewrite Nat.add_succ_r.
    rewrite IH.
    + rewrite map_size_delete_Some by (apply Hin; set_solver).
      assert (size m <> 0)%nat; [|lia].
      intros H0. apply map_size_empty_iff in H0. subst m.
      destruct (Hin r) as [x Hx]; [set_solver|]. rewrite lookup_empty in Hx.
      discriminate.
    + intros r' Hr'. rewrite lookup_delete_ne by set_solver.
      apply Hin. set_solver.
Qed.

(** What the sweeper's query returns. *)
Lemma snapshot_facts (ts batchSize : Z) (w : World) :
  let snapshot := expiredJobsQuery ts batchSize w in
  (forall jobId d, (jobId, d) ∈ snapshot ->
     cachedJobs w !! jobId = Some d /\ is_expired ts d = true) /\
  NoDup (map fst snapshot) /\
  length snapshot = Nat.min (Z.to_nat batchSize) (expired_count ts w) /\
  ((expired_count ts w <= Z.to_nat batchSize)%nat ->
   forall jobId d, cachedJobs w !! jobId = Some d -> is_expired ts d = true ->
     (jobId, d) ∈ snapshot).
Proof.
  cbn zeta. unfold expiredJobsQuery, expired_count.
  set (matches := List.filter (fun kv => is_expired ts kv.2)
                    (map_to_list (cachedJobs w))).
  set (sorted := merge_sort query_before matches).
  assert (Hperm : sorted ≡ₚ matches) by apply merge_sort_Permutation.
  assert (Hmatches : forall jobId d, (jobId, d) ∈ matches <->
            cachedJobs w !! jobId = Some d /\ is_expired ts d = true).
  { intros jobId d. unfold matches. rewrite list_elem_of_In, filter_In.
    rewrite <- list_elem_of_In, elem_of_map_to_list. reflexivity. }
  assert (Hin : forall jobId d, (jobId, d) ∈ take (Z.to_nat batchSize) sorted ->
            cachedJobs w !! jobId = Some d /\ is_expired ts d = true).
  { intros jobId d H. apply Hmatches. rewrite <- Hperm.
    eapply subseteq_take, H. }
  split; [exact Hin|]. split; [|split].
  - apply NoDup_fmap_fst.
    + intros jobId d1 d2 H1 H2. apply Hin in H1 as [H1 _].
      apply Hin in H2 as [H2 _]. congruence.
    + apply (sublist_NoDup _ sorted); [|apply sublist_take]. rewrite Hperm.
      unfold matches. apply NoDup_ListNoDup, List.NoDup_filter, NoDup_ListNoDup.
      apply NoDup_map_to_list.
  - rewrite length_take, Hperm. reflexivity.
  - intros Hall jobId d Hd Hexp. rewrite take_ge.
    + rewrite Hperm. apply Hmatches. auto.
    + rewrite Hperm. exact Hall.
Qed.

(** The run of the sweeper when the store serves it. *)
Lemma cleanupExpiredJobs_runs (ts batchSize : Z) (e : Env) (w : World) :
  store_ok e GetDoc = true -> store_ok e BatchCommit = true ->
  0 < batchSize ->
  cleanupExpiredJobs ts batchSize e w
  = (Returns (Z.of_nat (length (expiredJobsQuery ts batchSize w))),
     with_jobs w (delete_all (map fst (expiredJobsQuery ts batchSize w))
                    (cachedJobs w))) \/
  (expiredJobsQuery ts batchSize w = [] /\
   cleanupExpiredJobs ts batchSize e w = (Returns 0, w)).
Proof.
  intros Hg Hc Hpos.
  unfold cleanupExpiredJobs, try_catch, bind, getExpiredDocs, commit_deletes, ret.
  rewrite (proj2 (Z.leb_gt _ _)) by lia. rewrite Hg.
  case_bool_decide as Hempty; [right; auto|]. rewrite Hc. left. reflexivity.
Qed.

(** X9. With a batch size between 1 and 500 (one write batch) and a
    store that serves it, [cleanupExpiredJobs] returns the smaller of the
    batch size and the number of listings whose cache timestamp precedes
    the bound; it removes that many listings, all of them matched by the
    bound, keeps every other listing unchanged and adds none. *)
Theorem cleanupExpiredJobs_deletes_expired_batch
    (ts batchSize : Z) (e : Env) (w : World) :
  store_ok e GetDoc = true -> store_ok e BatchCommit = true ->
  0 < batchSize <= 500 ->
  exists w',
    cleanupExpiredJobs ts batchSize e w
    = (Returns (Z.min batchSize (Z.of_nat (expired_count ts w))), w') /\
    (forall jobId d, cachedJobs w' !! jobId = Some d ->
       cachedJobs w !! jobId = Some d) /\
    (forall jobId d, cachedJobs w !! jobId = Some d ->
       is_expired ts d = false -> cachedJobs w' !! jobId = Some d) /\
    (Z.of_nat (size (cachedJobs w'))
     = Z.of_nat (size (cachedJobs w))
       - Z.min batchSize (Z.of_nat (expired_count ts w))) /\
    cachedSearchResults w' = cachedSearchResults w.
Proof.
  intros Hg Hc [Hpos _].
  destruct (snapshot_facts ts batchSize w) as (Hin & Hnd & Hlen & _).
  assert (Hmin : Z.of_nat (length (expiredJobsQuery ts batchSize w))
                 = Z.min batchSize (Z.of_nat (expired_count ts w))).
  { rewrite Hlen. lia. }
  destruct (cleanupExpiredJobs_runs ts batchSize e w Hg Hc Hpos)
    as [Hrun|[Hempty Hrun]]; rewrite Hrun.
  - eexists. split; [rewrite Hmin; reflexivity|].
    cbn [cachedJobs cachedSearchResults with_jobs]. unfold delete_all.
    split; [|split; [|split; [|reflexivity]]].
    + intros jobId d. rewrite lookup_delete_all. case_bool_decide; congruence.
    + intros jobId d Hd Hlive. rewrite lookup_delete_all.
      case_bool_decide as Hdel; [|exact Hd].
      apply list_elem_of_fmap in Hdel as ([jobId' d'] & -> & Hsnap).
      apply Hin in Hsnap as [Hd' Hexp]. cbn [fst] in Hd. congruence.
    + rewrite <- Hmin.
      pose proof (size_delete_all (map fst (expiredJobsQuery ts batchSize w))
                    (cachedJobs w) Hnd) as Hsize.
      rewrite length_map in Hsize. rewrite <- Hsize; [lia|].
      intros r Hr. apply list_elem_of_fmap in Hr as ([jobId' d'] & -> & Hsnap).
      apply Hin in Hsnap as [Hd' _]. eauto.
  - rewrite Hempty in Hmin. cbn [length] in Hmin. rewrite <- Hmin.
    exists w. split; [reflexivity|]. repeat split; auto. lia.
Qed.

Lemma cleanupExpiredJobs_deletes_expired_batch_witness :
  let w := Samples.world_of {[ "42" := Samples.cached42; "43" := Samples.verified42 ]} in
  exists w',
    cleanupExpiredJobs (Samples.day) 1
      (Samples.env_at (21 * Samples.day) NetworkError Samples.store_up) w
    = (Returns 1, w') /\
    Z.of_nat (size (cachedJobs w')) = 1.
Proof.
  cbn zeta.
  destruct (cleanupExpiredJobs_deletes_expired_batch (Samples.day) 1
              (Samples.env_at (21 * Samples.day) NetworkError Samples.store_up)
              (Samples.world_of {[ "42" := Samples.cached42;
                                   "43" := Samples.verified42 ]}))
    as (w' & Hr & _ & _ & Hsize & _); [reflexivity|reflexivity|lia|].
  exists w'. split; [exact Hr|]. rewrite Hsize. reflexivity.
Defined.

(** X10. A run of the sweeper (batch size between 1 and 500) that
    returns less than the batch size has removed every listing matched by
    the bound: none is left, and a further run with the same bound
    returns 0. *)
Theorem cleanupExpiredJobs_drains
    (ts batchSize : Z) (e : Env) (w w' : World) (n : Z) :
  store_ok e GetDoc = true -> store_ok e BatchCommit = true ->
  0 < batchSize <= 500 ->
  cleanupExpiredJobs ts batchSize e w = (Returns n, w') ->
  n < batchSize ->
  (forall jobId d, cachedJobs w' !! jobId = Some d -> is_expired ts d = false) /\
  cleanupExpiredJobs ts batchSize e w' = (Returns 0, w').
Proof.
  intros Hg Hc [Hpos _] Hrun Hless.
  destruct (snapshot_facts ts batchSize w) as (Hin & Hnd & Hlen & Hall).
  assert (Hclean : forall jobId d,
            cachedJobs w' !! jobId = Some d -> is_expired ts d = false).
  { destruct (cleanupExpiredJobs_runs ts batchSize e w Hg Hc Hpos)
      as [Hrun'|[Hempty Hrun']]; rewrite Hrun' in Hrun;
      injection Hrun as <- <-.
    - intros jobId d. cbn [cachedJobs with_jobs]. unfold delete_all.
      rewrite lookup_delete_all. case_bool_decide as Hdel; [discriminate|].
      intros Hd. destruct (is_expired ts d) eqn:Hexp; [|reflexivity].
      exfalso. apply Hdel. apply list_elem_of_fmap. exists (jobId, d).
      split; [reflexivity|]. apply Hall; [lia|exact Hd|exact Hexp].
    - intros jobId d Hd. destruct (is_expired ts d) eqn:Hexp; [|reflexivity].
      exfalso. assert (Hmem : (jobId, d) ∈ expiredJobsQuery ts batchSize w).
      { apply Hall; [|exact Hd|exact Hexp]. rewrite Hempty in Hlen.
        cbn [length] in Hlen. lia. }
      rewrite Hempty in Hmem. apply elem_of_nil in Hmem. exact Hmem. }
  split; [exact Hclean|].
  destruct (cleanupExpiredJobs_runs ts batchSize e w' Hg Hc Hpos)
    as [Hrun'|[_ Hrun']]; [|exact Hrun'].
  destruct (expiredJobsQuery ts batchSize w') as [|[jobId d] rest] eqn:Hq.
  - unfold cleanupExpiredJobs, try_catch, bind, getExpiredDocs, ret.
    rewrite (proj2 (Z.leb_gt _ _)) by lia. rewrite Hg, Hq. reflexivity.
  - exfalso. destruct (snapshot_facts ts batchSize w') as (Hin' & _).
    destruct (Hin' jobId d) as [Hd Hexp]; [rewrite Hq; apply elem_of_cons; auto|].
    rewrite (Hclean jobId d Hd) in Hexp. discriminate.
Qed.

Lemma cleanupExpiredJobs_drains_witness :
  let w := Samples.world_of {[ "42" := Samples.cached42; "43" := Samples.verified42 ]} in
  let e := Samples.env_at (21 * Samples.day) NetworkError Samples.store_up in
  cleanupExpiredJobs (Samples.day) 100 e (Samples.world_of ∅)
  = (Returns 0, Samples.world_of ∅) /\
  cleanupExpiredJobs (Samples.day) 100 e w = (Returns 2, Samples.world_of ∅).
Proof.
  cbn zeta. split; [|vm_compute; reflexivity].
  eapply (cleanupExpiredJobs_drains (Samples.day) 100 _
            (Samples.world_of {[ "42" := Samples.cached42;
                                 "43" := Samples.verified42 ]}) _ 2);
    first [reflexivity | lia].
Defined.

(** X11. With a bound no later than 20 days before now, the sweeper
    removes only listings that [getCachedJob] already reports as absent:
    no listing a reader could still retrieve is deleted. *)
Theorem cleanupExpiredJobs_removes_only_unreadable
    (ts batchSize : Z) (e : Env) (w w' : World) (n : Z)
    (jobId : string) (d : JobListing) :
  ts <= twenty_days_before e ->
  cleanupExpiredJobs ts batchSize e w = (Returns n, w') ->
  cachedJobs w !! jobId = Some d ->
  cachedJobs w' !! jobId = None ->
  getCachedJob jobId e w = (Returns None, w).
Proof.
  intros Hts Hrun Hd Hgone.
  assert (Hexp : is_expired ts d = true /\ store_ok e GetDoc = true).
  { revert Hrun.
    unfold cleanupExpiredJobs, try_catch, bind, getExpiredDocs, commit_deletes,
      throw, ret.
    destruct (batchSize <=? 0); [intros [= _ <-]; congruence|].
    destruct (store_ok e GetDoc); [|intros [= _ <-]; congruence].
    case_bool_decide; [intros [= _ <-]; congruence|].
    destruct (store_ok e BatchCommit); [|intros [= _ <-]; congruence].
    intros [= _ <-]. cbn [cachedJobs with_jobs] in Hgone.
    unfold delete_all in Hgone. rewrite lookup_delete_all in Hgone.
    case_bool_decide as Hdel; [|congruence].
    apply list_elem_of_fmap in Hdel as ([jobId' d'] & -> & Hsnap).
    destruct (snapshot_facts ts batchSize w) as (Hin & _).
    apply Hin in Hsnap as [Hd' Hexp]. cbn [fst] in Hd.
    split; [congruence|reflexivity]. }
  destruct Hexp as [Hexp Hok]. rewrite getCachedJob_spec by exact Hok.
  rewrite Hd. unfold is_expired in Hexp.
  destruct (job_createdAt d) as [t|]; [|discriminate].
  apply Z.ltb_lt in Hexp. unfold twenty_days_before in Hts.
  rewrite (proj2 (Z.ltb_lt _ _)) by lia. reflexivity.
Qed.

Lemma cleanupExpiredJobs_removes_only_unreadable_witness :
  let w := Samples.world_of {[ "42" := Samples.cached42 ]} in
  let e := Samples.env_at (21 * Samples.day) NetworkError Samples.store_up in
  getCachedJob "42" e w = (Returns None, w).
Proof.
  cbn zeta.
  apply (cleanupExpiredJobs_removes_only_unreadable (Samples.day) 100 _ _
           (Samples.world_of ∅) 1 "42" Samples.cached42).
  - vm_compute. discriminate.
  - reflexivity.
  - reflexivity.
  - reflexivity.
Defined.

(** X12. With a batch size that is not positive, or a store that refuses
    the query or the commit, the sweeper returns 0 instead of throwing
    and deletes nothing. *)
Theorem cleanupExpiredJobs_fails_safe
    (ts batchSize : Z) (e : Env) (w : World) :
  batchSize <= 0 \/ store_ok e GetDoc = false \/
  store_ok e BatchCommit = false ->
  cleanupExpiredJobs ts batchSize e w = (Returns 0, w).
Proof.
  intros H.
  unfold cleanupExpiredJobs, try_catch, bind, getExpiredDocs, commit_deletes,
    throw, ret.
  destruct (batchSize <=? 0) eqn:Hb; [reflexivity|].
  apply Z.leb_gt in Hb.
  destruct (store_ok e GetDoc) eqn:Hg; [|reflexivity].
  case_bool_decide; [reflexivity|].
  destruct (store_ok e BatchCommit) eqn:Hc; [|reflexivity].
  destruct H as [H|[H|H]]; [lia|discriminate..].
Qed.

Lemma cleanupExpiredJobs_fails_safe_witness :
  let w := Samples.world_of {[ "42" := Samples.cached42 ]} in
  cleanupExpiredJobs (Samples.day) 100
    (Samples.env_at (21 * Samples.day) NetworkError Samples.commit_fails) w
  = (Returns 0, w).
Proof.
  cbn zeta. apply cleanupExpiredJobs_fails_safe. right. right. reflexivity.
Defined.

End Sweeper.

(** ** An invariant of the listings table *)

Section KeyedById.





End KeyedById.

(** ** Outcomes of the verification checks *)

Section VerificationOutcomes.

(** The test on 404 and 410 adds nothing to [response.ok]. *)
Lemma basic_validity (status : Z) :
  response_ok status && negb (bool_decide (status ∈ [404; 410]))
  = response_ok status.
Proof.
  unfold response_ok. destruct (200 <=? status) eqn:H1; [|reflexivity].
  destruct (status <=? 299) eqn:H2; [|reflexivity].
  apply Z.leb_le in H1, H2. cbn [andb].
  rewrite bool_decide_eq_false_2; [reflexivity|].
  intros [->|[->|[]%elem_of_nil]%elem_of_cons]%elem_of_cons; lia.
Qed.


(** The basic check after a definite answer of the probe. *)
Lemma verifyJobValidity_answered
    (job : JobListing) (status : Z) (body : string) (e : Env) (w : World) :
  is_empty (job_redirect_url job) = false ->
  network e MHead (job_redirect_url job) = Response status body ->
  verifyJobValidity job e w
  = (Returns (response_ok status),
     (updateJobValidity (job_id job) (response_ok status) e
        (with_event w (Fetched MHead (job_redirect_url job)))).2).
Proof.
  intros Hurl Hnet. unfold verifyJobValidity, try_catch, bind, fetch, ret.
  rewrite Hurl, Hnet. cbn [fst]. rewrite basic_validity.
  destruct (updateJobValidity_trace (job_id job) (response_ok status) e
              (with_event w (Fetched MHead (job_redirect_url job))))
    as (r & w' & -> & _). reflexivity.
Qed.



Lemma prefix_toLowerCase (sub s : string) :
  String.prefix sub s = true ->
  String.prefix (toLowerCase sub) (toLowerCase s) = true.
Proof.
  revert s. induction sub as [|a sub IH]; intros s.
  - destruct s; reflexivity.
  - destruct s as [|b s]; cbn [String.prefix toLowerCase]; [discriminate|].
    destruct (ascii_dec a b) as [->|]; [|discriminate].
    intros H. destruct (ascii_dec (lower_char b) (lower_char b)); [|congruence].
    apply IH. exact H.
Qed.

(** Matching on the lower-cased text ignores the letter case of the text. *)
Lemma includes_toLowerCase (s sub : string) :
  includes s sub = true -> includes (toLowerCase s) (toLowerCase sub) = true.
Proof.
  induction s as [|c s IH]; cbn [includes toLowerCase].
  - rewrite !orb_false_r. apply (prefix_toLowerCase sub "").
  - intros [H|H]%orb_prop.
    + pose proof (prefix_toLowerCase sub (String c s) H) as Hp.
      cbn [toLowerCase] in Hp. rewrite Hp. reflexivity.
    + rewrite (IH H). apply orb_true_r.
Qed.

Lemma existsb_includes (textLower : string) (phrases : list string) (phrase : string) :
  In phrase phrases -> includes textLower phrase = true ->
  existsb (includes textLower) phrases = true.
Proof. intros Hin Hp. apply existsb_exists. eauto. Qed.

(** X15. When the page of a listing with a redirect URL is fetched,
    [performAdvancedVerification] returns "valid" exactly when the status
    is a success, the lower-cased body holds none of the closed phrases
    and holds at least one application indicator; it records that verdict
    by one call of [updateJobValidity]. In particular a body that holds a
    closed phrase in any letter case is invalid whatever else it holds. *)
Theorem performAdvancedVerification_verdict
    (job : JobListing) (status : Z) (text : string) (e : Env) (w : World) :
  is_empty (job_redirect_url job) = false ->
  network e MGet (job_redirect_url job) = Response status text ->
  let verdict :=
    response_ok status
    && negb (existsb (includes (toLowerCase text)) closedPhrases)
    && existsb (includes (toLowerCase text)) applicationFormIndicators in
  (exists w',
     performAdvancedVerification job e w = (Returns verdict, w') /\
     trace w' = trace w ++ [Fetched MGet (job_redirect_url job);
                            ValidityUpdate (job_id job) verdict]) /\
  (forall phrase variant,
     In phrase closedPhrases -> toLowerCase variant = phrase ->
     includes text variant = true -> verdict = false).
Proof.
  intros Hurl Hnet verdict. split.
  - unfold performAdvancedVerification, try_catch, bind, fetch, ret.
    rewrite Hurl, Hnet. subst verdict.
    set (w1 := with_event w (Fetched MGet (job_redirect_url job))).
    assert (Hstep : forall b,
      exists r w', updateJobValidity (job_id job) b e w1 = (Returns r, w') /\
                   trace w' = trace w ++ [Fetched MGet (job_redirect_url job);
                                          ValidityUpdate (job_id job) b]).
    { intros b. destruct (updateJobValidity_trace (job_id job) b e w1)
        as (r & w' & Hr & Ht).
      exists r, w'. split; [exact Hr|]. rewrite Ht.
      cbn [w1 trace with_event]. rewrite <- app_assoc. reflexivity. }
    destruct (response_ok status); cbn [negb andb].
    + destruct (existsb (includes (toLowerCase text)) closedPhrases); cbn [negb andb].
      * destruct (Hstep false) as (r & w' & -> & Ht). eauto.
      * destruct (Hstep (existsb (includes (toLowerCase text))
                           applicationFormIndicators)) as (r & w' & -> & Ht).
        eauto.
    + destruct (Hstep false) as (r & w' & -> & Ht). eauto.
  - intros phrase variant Hin Hlow Hinc. subst verdict.
    apply includes_toLowerCase in Hinc. rewrite Hlow in Hinc.
    rewrite (existsb_includes _ _ phrase Hin Hinc).
    rewrite andb_false_r. reflexivity.
Qed.

Lemma performAdvancedVerification_verdict_witness :
  exists w',
    performAdvancedVerification Samples.cached42
      (Samples.env_at (16 * Samples.day)
         (Response 200 "Apply now! (This Position Has Been Filled.)")
         Samples.store_up)
      (Samples.world_of {[ "42" := Samples.cached42 ]}) = (Returns false, w') /\
    trace w' = [Fetched MGet "https://jobs.example/42"; ValidityUpdate "42" false].
Proof.
  apply (performAdvancedVerification_verdict Samples.cached42 200
           "Apply now! (This Position Has Been Filled.)"); reflexivity.
Defined.

End VerificationOutcomes.

(** ** The per-listing verification protocol *)

Section VerificationProtocol.

Lemma basic_probe_failure_returns_true (job : JobListing) (e : Env) (w : World) :
  network e MHead (job_redirect_url job) = NetworkError ->
  exists w', verifyJobValidity job e w = (Returns true, w').
Proof.
  intros Hnet. unfold verifyJobValidity, try_catch, bind, fetch, ret.
  destruct (is_empty (job_redirect_url job)); [eauto|]. rewrite Hnet. eauto.
Qed.

Lemma getCachedJob_result (jobId : string) (e : Env) (w : World) :
  getCachedJob jobId e w = ((getCachedJob jobId e w).1, w).
Proof. destruct (getCachedJob_reads jobId e w) as [r ->]. reflexivity. Qed.

Lemma verifyJobById_unfold (jobId : string) (e : Env) (w : World) :
  verifyJobById jobId e w =
    match (getCachedJob jobId e w).1 with
    | Returns (Some job) =>
        if younger_than (jobAge e job) TEN_DAYS_MS then (Returns true, w)
        else
          match verifyJobValidity job e w with
          | (Returns isValidBasic, w1) =>
              if negb isValidBasic then (Returns false, w1)
              else if finite_and_older_than (jobAge e job) FIFTEEN_DAYS_MS
                   then match performAdvancedVerification job e w1 with
                        | (Returns r, w2) => (Returns r, w2)
                        | (Throws, w2) => (Returns true, w2)
                        end
                   else (Returns isValidBasic, w1)
          | (Throws, w1) => (Returns true, w1)
          end
    | Returns None => (Returns false, w)
    | Throws => (Returns true, w)
    end.
Proof.
  unfold verifyJobById, try_catch. unfold bind at 1.
  rewrite (getCachedJob_result jobId e w). cbn [fst].
  destruct (getCachedJob jobId e w).1 as [[job|]|]; try reflexivity.
  unfold bind at 1, ask.
  destruct (younger_than (jobAge e job) TEN_DAYS_MS); [reflexivity|].
  unfold bind. destruct (verifyJobValidity job e w) as [[b|] w1]; [|reflexivity].
  destruct (negb b); [reflexivity|].
  destruct (finite_and_older_than (jobAge e job) FIFTEEN_DAYS_MS); [|reflexivity].
  destruct (performAdvancedVerification job e w1) as [[r|] w2]; reflexivity.
Qed.

Lemma no_url_no_check (job : JobListing) (e : Env) (w : World) :
  is_empty (job_redirect_url job) = true ->
  verifyJobValidity job e w = (Returns true, w) /\
  performAdvancedVerification job e w = (Returns true, w).
Proof.
  intros H. unfold verifyJobValidity, performAdvancedVerification, try_catch, ret.
  rewrite H. auto.
Qed.

(** The advanced check of a listing with a redirect URL starts by
    fetching the page. *)
Lemma performAdvancedVerification_fetches (job : JobListing) (e : Env) (w : World) :
  is_empty (job_redirect_url job) = false ->
  exists r w' events,
    performAdvancedVerification job e w = (Returns r, w') /\
    trace w' = trace w ++ Fetched MGet (job_redirect_url job) :: events.
Proof.
  intros Hurl. unfold performAdvancedVerification, try_catch, bind, fetch, ret.
  rewrite Hurl.
  destruct (network e MGet (job_redirect_url job)) as [|status text].
  { eexists true, _, []. split; reflexivity. }
  set (w1 := with_event w (Fetched MGet (job_redirect_url job))).
  assert (Hstep : forall b,
    exists r w', updateJobValidity (job_id job) b e w1 = (Returns r, w') /\
                 trace w' = trace w ++ [Fetched MGet (job_redirect_url job);
                                        ValidityUpdate (job_id job) b]).
  { intros b. destruct (updateJobValidity_trace (job_id job) b e w1)
      as (r & w' & Hr & Ht).
    exists r, w'. split; [exact Hr|]. rewrite Ht.
    cbn [w1 trace with_event]. rewrite <- app_assoc. reflexivity. }
  destruct (negb (response_ok status)).
  { destruct (Hstep false) as (r & w' & -> & Ht). eauto. }
  destruct (existsb _ closedPhrases).
  { destruct (Hstep false) as (r & w' & -> & Ht). eauto. }
  destruct (Hstep (existsb (includes (toLowerCase text)) applicationFormIndicators))
    as (r & w' & -> & Ht). eauto.
Qed.

(** X16. [verifyJobById] makes no outbound call and changes nothing in
    three cases: the listing cannot be retrieved (missing, expired, or
    store not serving the read), and it answers [false]; the listing is
    younger than 10 days, or has no redirect URL (at any age), and it
    answers [true]. *)
Theorem verifyJobById_without_probe (jobId : string) (e : Env) (w : World) :
  ((getCachedJob jobId e w).1 = Returns None ->
   verifyJobById jobId e w = (Returns false, w)) /\
  (forall job,
     (getCachedJob jobId e w).1 = Returns (Some job) ->
     younger_than (jobAge e job) TEN_DAYS_MS = true \/
     is_empty (job_redirect_url job) = true ->
     verifyJobById jobId e w = (Returns true, w)).
Proof.
  split.
  - intros H. rewrite verifyJobById_unfold, H. reflexivity.
  - intros job H Hcase. rewrite verifyJobById_unfold, H.
    destruct (younger_than (jobAge e job) TEN_DAYS_MS); [reflexivity|].
    destruct Hcase as [Hc|Hurl]; [discriminate|].
    destruct (no_url_no_check job e w Hurl) as [-> ->]. cbn [negb].
    destruct (finite_and_older_than _ _); reflexivity.
Qed.

Lemma verifyJobById_without_probe_witness :
  let w := Samples.world_of {[ "42" := Samples.cached42 ]} in
  verifyJobById "42"
    (Samples.env_at (21 * Samples.day) (Response 404 "") Samples.store_up) w
  = (Returns false, w) /\
  verifyJobById "42"
    (Samples.env_at (9 * Samples.day) (Response 404 "") Samples.store_up) w
  = (Returns true, w).
Proof.
  cbn zeta. split.
  - apply verifyJobById_without_probe. reflexivity.
  - apply (verifyJobById_without_probe "42" _ _ ) with (job := Samples.cached42).
    + reflexivity.
    + left. reflexivity.
Defined.

(** X17. When the basic probe of a retrievable listing of 10 days or more
    is answered with a non-success status, [verifyJobById] answers [false]
    after that one probe and one validity update to [false]: the page is
    never fetched for an advanced check, however old the listing is. *)
Theorem verifyJobById_invalid_stops
    (jobId : string) (job : JobListing) (status : Z) (body : string)
    (e : Env) (w : World) :
  (getCachedJob jobId e w).1 = Returns (Some job) ->
  younger_than (jobAge e job) TEN_DAYS_MS = false ->
  is_empty (job_redirect_url job) = false ->
  network e MHead (job_redirect_url job) = Response status body ->
  response_ok status = false ->
  exists w',
    verifyJobById jobId e w = (Returns false, w') /\
    trace w' = trace w ++ [Fetched MHead (job_redirect_url job);
                           ValidityUpdate (job_id job) false].
Proof.
  intros Hjob Hage Hurl Hnet Hbad. rewrite verifyJobById_unfold, Hjob, Hage.
  rewrite (verifyJobValidity_answered job status body) by assumption.
  rewrite Hbad. cbn [negb]. eexists. split; [reflexivity|].
  destruct (updateJobValidity_trace (job_id job) false e
              (with_event w (Fetched MHead (job_redirect_url job))))
    as (r & w' & Hr & Ht). rewrite Hr. cbn [snd]. rewrite Ht.
  cbn [trace with_event]. rewrite <- app_assoc. reflexivity.
Qed.

Lemma verifyJobById_invalid_stops_witness :
  exists w',
    verifyJobById "42"
      (Samples.env_at (18 * Samples.day) (Response 410 "") Samples.store_up)
      (Samples.world_of {[ "42" := Samples.cached42 ]}) = (Returns false, w') /\
    trace w' = [Fetched MHead "https://jobs.example/42"; ValidityUpdate "42" false].
Proof.
  apply (verifyJobById_invalid_stops "42" Samples.cached42 410 ""); reflexivity.
Defined.

(** X18. When the basic check of a retrievable listing of 10 days or more
    does not find it invalid (the probe is answered with a success status,
    or fails and is inconclusive), [verifyJobById] fetches the page for the
    advanced check exactly when the listing has a cache timestamp older
    than 15 days; a listing without cache timestamp is never escalated. *)
Theorem verifyJobById_escalation
    (jobId : string) (job : JobListing) (e : Env) (w : World) :
  (getCachedJob jobId e w).1 = Returns (Some job) ->
  younger_than (jobAge e job) TEN_DAYS_MS = false ->
  is_empty (job_redirect_url job) = false ->
  network e MHead (job_redirect_url job) = NetworkError \/
  (exists status body,
     network e MHead (job_redirect_url job) = Response status body /\
     response_ok status = true) ->
  exists r w' events,
    verifyJobById jobId e w = (Returns r, w') /\
    trace w' = trace w ++ events /\
    (In (Fetched MGet (job_redirect_url job)) events <->
     exists T, job_createdAt job = Some T /\ FIFTEEN_DAYS_MS < now e - T).
Proof.
  intros Hjob Hage Hurl Hbasic. rewrite verifyJobById_unfold, Hjob, Hage.
  destruct (verifyJobValidity_trace job e w Hurl)
    as (b & w1 & evs & Hv & Ht1 & Hno).
  assert (Hb : b = true).
  { destruct Hbasic as [Hnet|(status & body & Hnet & Hok)].
    - destruct (basic_probe_failure_returns_true job e w Hnet) as (w0 & H0).
      rewrite H0 in Hv. congruence.
    - rewrite (verifyJobValidity_answered job status body) in Hv by assumption.
      rewrite Hok in Hv. congruence. }
  rewrite Hv. subst b. cbn [negb].
  assert (Hage15 : finite_and_older_than (jobAge e job) FIFTEEN_DAYS_MS = true <->
                   exists T, job_createdAt job = Some T /\ FIFTEEN_DAYS_MS < now e - T).
  { unfold jobAge. destruct (job_createdAt job) as [T|]; cbn.
    - rewrite Z.ltb_lt. split; [eauto|]. intros (T' & [= <-] & H). exact H.
    - split; [discriminate|]. intros (T' & H & _). discriminate. }
  destruct (finite_and_older_than (jobAge e job) FIFTEEN_DAYS_MS) eqn:Hold.
  - destruct (performAdvancedVerification_fetches job e w1 Hurl)
      as (r & w2 & evs2 & -> & Ht2).
    eexists r, w2, _. split; [reflexivity|]. split.
    + rewrite Ht2, Ht1, <- app_assoc. reflexivity.
    + split; [intros _; apply Hage15; reflexivity|]. intros _.
      right. apply in_or_app. right. left. reflexivity.
  - eexists true, w1, _. split; [reflexivity|]. split; [exact Ht1|].
    split.
    + intros [H|H]; [discriminate|]. destruct (Hno _ H).
    + intros H. apply Hage15 in H. discriminate.
Qed.

Lemma verifyJobById_escalation_witness :
  exists r w',
    verifyJobById "42"
      (Samples.env_at (18 * Samples.day) NetworkError Samples.store_up)
      (Samples.world_of {[ "42" := Samples.cached42 ]}) = (Returns r, w') /\
    In (Fetched MGet "https://jobs.example/42") (trace w').
Proof.
  destruct (verifyJobById_escalation "42" Samples.cached42
              (Samples.env_at (18 * Samples.day) NetworkError Samples.store_up)
              (Samples.world_of {[ "42" := Samples.cached42 ]}))
    as (r & w' & events & Hr & Ht & Hesc); [reflexivity..|left; reflexivity|].
  exists r, w'. split; [exact Hr|]. rewrite Ht. apply in_or_app. right.
  apply Hesc. exists 0. split; [reflexivity|]. vm_compute. reflexivity.
Defined.












End VerificationProtocol.

(** ** The verify endpoint *)

Section VerifyEndpoint.

Lemma verifyJobById_returns (jobId : string) (e : Env) (w : World) :
  exists r, verifyJobById jobId e w = (Returns r, (verifyJobById jobId e w).2).
Proof.
  rewrite verifyJobById_unfold.
  destruct (getCachedJob jobId e w).1 as [[job|]|]; try (eexists; reflexivity).
  destruct (younger_than _ _); [eexists; reflexivity|].
  destruct (verifyJobValidity job e w) as [[b|] w1]; [|eexists; reflexivity].
  destruct (negb b); [eexists; reflexivity|].
  destruct (finite_and_older_than _ _); [|eexists; reflexivity].
  destruct (performAdvancedVerification job e w1) as [[r|] w2]; eexists; reflexivity.
Qed.

(** X20. The verify endpoint always answers, and never with status 500:
    400 for an empty id and 404 for a listing that cannot be retrieved,
    both without any effect; otherwise 200, with the verdict of
    [verifyJobById] and with the listing, its verified-at and its attempt
    count as read back from the store after the verification. *)
Theorem verify_endpoint_answers (jobId : string) (e : Env) (w : World) :
  exists r w',
    VerifyRoute.GET jobId e w = (Returns r, w') /\
    match r with
    | VerifyRoute.JsonError status _ =>
        w' = w /\
        ((status = 400 /\ is_empty jobId = true) \/
         (status = 404 /\ is_empty jobId = false /\
          (getCachedJob jobId e w).1 = Returns None))
    | VerifyRoute.JsonOk body =>
        is_empty jobId = false /\
        verifyJobById jobId e w = (Returns (VerifyRoute.vs_isValid body), w') /\
        Returns (VerifyRoute.vs_job body) = (getCachedJob jobId e w').1 /\
        VerifyRoute.vs_verifiedAt body
        = VerifyRoute.vs_job body ≫= job_verifiedAt /\
        VerifyRoute.vs_attempts body
        = default 0 (VerifyRoute.vs_job body ≫= job_verificationAttempts)
    end.
Proof.
  destruct (is_empty jobId) eqn:Hid.
  { eexists _, w. split.
    - unfold VerifyRoute.GET, try_catch. rewrite Hid. reflexivity.
    - cbn. auto. }
  destruct (getCachedJob_reads jobId e w) as [cached Hc].
  destruct cached as [job|].
  - destruct (verifyJobById_returns jobId e w) as [v Hv].
    destruct (getCachedJob_reads jobId e (verifyJobById jobId e w).2) as [u Hu].
    eexists _, _. split.
    + unfold VerifyRoute.GET, try_catch, bind, ret. rewrite Hid, Hc, Hv, Hu.
      reflexivity.
    + cbn. rewrite Hu. cbn. auto.
  - eexists _, w. split.
    + unfold VerifyRoute.GET, try_catch, bind, ret. rewrite Hid, Hc. reflexivity.
    + cbn. rewrite Hc. auto 6.
Qed.

Lemma verify_endpoint_answers_witness :
  let w := Samples.world_of {[ "42" := Samples.cached42 ]} in
  let e := Samples.env_at (30 * Samples.day) (Response 200 "") Samples.store_up in
  exists r w',
    VerifyRoute.GET "42" e w = (Returns r, w') /\
    r = VerifyRoute.JsonError 404 "Job not found in cache" /\ w' = w.
Proof.
  cbn zeta.
  destruct (verify_endpoint_answers "42"
              (Samples.env_at (30 * Samples.day) (Response 200 "") Samples.store_up)
              (Samples.world_of {[ "42" := Samples.cached42 ]}))
    as (r & w' & Hr & Hcase).
  exists r, w'. split; [exact Hr|].
  assert (Hval : VerifyRoute.GET "42"
                   (Samples.env_at (30 * Samples.day) (Response 200 "") Samples.store_up)
                   (Samples.world_of {[ "42" := Samples.cached42 ]})
                 = (Returns (VerifyRoute.JsonError 404 "Job not found in cache"),
                    Samples.world_of {[ "42" := Samples.cached42 ]}))
    by reflexivity.
  rewrite Hval in Hr. injection Hr as <- <-. auto.
Defined.



End VerifyEndpoint.

(** ** The search route *)

Section SearchRoute.

Lemma getCachedJobsByIds_returns (jobIds : list string) (e : Env) (w : World) :
  exists js, getCachedJobsByIds jobIds e w = (Returns js, w).
Proof.
  destruct (store_ok e GetDoc) eqn:Hok.
  - rewrite getCachedJobsByIds_reads by exact Hok. eauto.
  - destruct jobIds as [|jobId rest].
    + eexists. reflexivity.
    + unfold getCachedJobsByIds, try_catch. cbn [length read_batches].
      cbn [Nat.ltb Nat.leb]. unfold bind at 1. cbn [drop take read_batch].
      unfold bind at 1, getJobDoc. rewrite Hok. eexists. reflexivity.
Qed.

(** The handler after a cache miss, branch by branch. *)
Lemma GET_on_miss (rq : JobsRoute.SearchRequest) (e : Env) (w : World) :
  (JobsRoute.cache_lookup rq e w).1 = Returns None ->
  JobsRoute.GET rq e w =
    if negb (credentials e)
    then (Returns (JobsRoute.JsonError 500 "API credentials not configured"), w)
    else if 90 <=? adzunaRequestsToday (after_day_check e w)
    then (Returns (JobsRoute.JsonError 429 "API rate limit reached for today"),
          after_day_check e w)
    else
      match JobsRoute.what_parameter rq with
      | Throws =>
          (Returns (JobsRoute.JsonError 500 "Internal server error"),
           after_day_check e w)
      | Returns what =>
          let w2 := at_provider_call rq what e w in
          match provider e (JobsRoute.provider_request rq what) with
          | ProviderUnreachable =>
              (Returns (JobsRoute.JsonError 500 "Internal server error"), w2)
          | ProviderResponse status body =>
              if negb (response_ok status)
              then
                match JobsRoute.json_error status "Failed to fetch job listings"
                with
                | Returns answer => (Returns answer, w2)
                | Throws =>
                    (Returns (JobsRoute.JsonError 500 "Internal server error"),
                     w2)
                end
              else
                match body with
                | None =>
                    (Returns (JobsRoute.JsonError 500 "Internal server error"), w2)
                | Some data =>
                    (Returns (JobsRoute.JsonOk (JobsRoute.response_data rq data)),
                     (cacheSearchResults (JobsRoute.params_of rq)
                        (jobs (JobsRoute.response_data rq data))
                        (totalJobs (JobsRoute.response_data rq data))
                        (totalPages (JobsRoute.response_data rq data)) e w2).2)
                end
          | ProviderInterrupted status =>
              (Returns (JobsRoute.JsonError 500 "Internal server error"), w2)
          end
      end.
Proof.
  intros Hmiss. destruct (cache_lookup_reads rq e w) as [r Hr].
  rewrite Hr in Hmiss. cbn [fst] in Hmiss. injection Hmiss as ->.
  unfold JobsRoute.GET, try_catch. unfold bind at 1. rewrite Hr.
  unfold JobsRoute.fetch_fresh, JobsRoute.checkAndResetCounter.
  unfold bind at 1, ask.
  destruct (credentials e); cbn [negb]; [|reflexivity].
  unfold bind, get, put, ret, lift, call_provider, at_provider_call, after_day_check.
  destruct (String.eqb (today e) (lastResetDate w)).
  - destruct (90 <=? adzunaRequestsToday w); [reflexivity|].
    destruct (JobsRoute.what_parameter rq) as [what|]; [|reflexivity].
    cbn zeta. cbn [provider].
    destruct (provider e (JobsRoute.provider_request rq what))
      as [|status body|status];
      [reflexivity| |destruct (negb (response_ok status)); reflexivity].
    destruct (negb (response_ok status));
      [destruct (JobsRoute.json_error status _); reflexivity|].
    destruct body as [data|]; [|reflexivity].
    match goal with |- context [cacheSearchResults ?p ?j ?n ?t e ?w0] =>
      destruct (cacheSearchResults_returns p j n t e w0) as (w' & -> & _) end.
    reflexivity.
  - change (90 <=? adzunaRequestsToday (with_counter w 0 (today e))) with false.
    cbn iota.
    destruct (JobsRoute.what_parameter rq) as [what|]; [|reflexivity].
    cbn zeta. cbn [provider].
    destruct (provider e (JobsRoute.provider_request rq what))
      as [|status body|status];
      [reflexivity| |destruct (negb (response_ok status)); reflexivity].
    destruct (negb (response_ok status));
      [destruct (JobsRoute.json_error status _); reflexivity|].
    destruct body as [data|]; [|reflexivity].
    match goal with |- context [cacheSearchResults ?p ?j ?n ?t e ?w0] =>
      destruct (cacheSearchResults_returns p j n t e w0) as (w' & -> & _) end.
    reflexivity.
Qed.

(** The handler on a cache hit. *)
Lemma GET_on_hit (rq : JobsRoute.SearchRequest) (cached : CachedJobSearchResult)
    (e : Env) (w : World) :
  (JobsRoute.cache_lookup rq e w).1 = Returns (Some cached) ->
  JobsRoute.GET rq e w =
    (Returns (JobsRoute.JsonOk
                {| jobs := omap (valid_listing w) (cs_jobIds cached);
                   totalJobs := cs_totalJobs cached;
                   totalPages := cs_totalPages cached;
                   currentPage := JobsRoute.rq_page rq;
                   fromCache := true |}), w).
Proof.
  intros Hhit. destruct (cache_lookup_reads rq e w) as [r Hr].
  assert (Hok : store_ok e GetDoc = true).
  { revert Hhit. unfold JobsRoute.cache_lookup, ret.
    destruct (JobsRoute.rq_skipCache rq); [discriminate|].
    unfold try_catch, getCachedSearchResults, try_catch, bind, lift,
      getSearchDoc, ret.
    cbn zeta. destruct (doc _); [|discriminate].
    destruct (store_ok e GetDoc); [reflexivity|discriminate]. }
  rewrite Hr in Hhit. cbn [fst] in Hhit. injection Hhit as ->.
  unfold JobsRoute.GET, try_catch. unfold bind at 1. rewrite Hr.
  unfold bind, ret. rewrite getCachedJobsByIds_reads by exact Hok. reflexivity.
Qed.

Lemma cache_lookup_hit (rq : JobsRoute.SearchRequest)
    (cached : CachedJobSearchResult) (e : Env) (w : World) (ref : string) :
  JobsRoute.rq_skipCache rq = false ->
  store_ok e GetDoc = true ->
  doc (getSearchCacheKey (JobsRoute.params_of rq)) = Returns ref ->
  cachedSearchResults w !! ref = Some cached ->
  now e <= cs_createdAt cached + DEFAULT_EXPIRATION_MS ->
  (JobsRoute.cache_lookup rq e w).1 = Returns (Some cached).
Proof.
  intros Hskip Hok Hdoc Hc Hlive. unfold JobsRoute.cache_lookup. rewrite Hskip.
  unfold try_catch, getCachedSearchResults, try_catch, bind, lift,
    getSearchDoc, ask, ret.
  cbn zeta. rewrite Hdoc, Hok, Hc.
  rewrite (proj2 (Z.ltb_ge _ _)) by lia. reflexivity.
Qed.


Lemma cacheSearchResults_keeps (params : JobSearchParams) (js : list JobListing)
    (n : Z) (pages : option Z) (e : Env) (w : World) :
  let w' := (cacheSearchResults params js n pages e w).2 in
  trace w' = trace w /\
  adzunaRequestsToday w' = adzunaRequestsToday w /\
  lastResetDate w' = lastResetDate w.
Proof.
  cbn zeta.
  unfold cacheSearchResults, try_catch, bind, lift, ask, commit, throw, ret.
  cbn zeta. destruct (doc (getSearchCacheKey params)); [|auto].
  destruct (forallb job_write_accepted js); [|auto].
  destruct (store_ok e BatchCommit); [|auto]. cbn [snd foldl apply_write].
  match goal with |- context [foldl apply_write ?w0 (job_writes ?t js)] =>
    destruct (job_writes_keep t js w0) as (_ & -> & -> & ->) end.
  auto.
Qed.

Lemma after_day_check_caches (e : Env) (w : World) :
  same_caches w (after_day_check e w) /\
  trace (after_day_check e w) = trace w.
Proof.
  unfold after_day_check, same_caches.
  destruct (String.eqb (today e) (lastResetDate w)); auto.
Qed.

(** X23. The search route always answers, and it writes to the caches
    only when it answers with freshly fetched results: after an error
    response of any kind, both caches are as they were, and after an
    answer from the cache the whole state is as it was. *)
Theorem GET_writes_only_on_fresh_success
    (rq : JobsRoute.SearchRequest) (e : Env) (w : World) :
  exists r w',
    JobsRoute.GET rq e w = (Returns r, w') /\
    match r with
    | JobsRoute.JsonError _ _ => same_caches w w'
    | JobsRoute.JsonOk body => fromCache body = true -> w' = w
    end.
Proof.
  destruct (cache_lookup_reads rq e w) as [[cached|] Hr].
  - rewrite (GET_on_hit rq cached) by (rewrite Hr; reflexivity).
    eexists _, _. split; [reflexivity|]. cbn. auto.
  - rewrite GET_on_miss by (rewrite Hr; reflexivity).
    destruct (after_day_check_caches e w) as [Hday _].
    assert (Hcall : forall what, same_caches w (at_provider_call rq what e w)).
    { intros what. exact Hday. }
    destruct (negb (credentials e)).
    { eexists _, _. split; [reflexivity|]. split; reflexivity. }
    destruct (90 <=? _).
    { eexists _, _. split; [reflexivity|]. exact Hday. }
    destruct (JobsRoute.what_parameter rq) as [what|].
    2:{ eexists _, _. split; [reflexivity|]. exact Hday. }
    cbn zeta.
    destruct (provider e _) as [|status body|status].
    { eexists _, _. split; [reflexivity|]. apply Hcall. }
    2:{ eexists _, _. split; [reflexivity|]. apply Hcall. }
    destruct (negb (response_ok status)).
    { destruct (JobsRoute.json_error status _) as [answer|] eqn:Hanswer.
      - eexists _, _. split; [reflexivity|].
        unfold JobsRoute.json_error in Hanswer.
        destruct (_ && _); [|discriminate]. injection Hanswer as <-.
        apply Hcall.
      - eexists _, _. split; [reflexivity|]. apply Hcall. }
    destruct body as [data|].
    + eexists _, _. split; [reflexivity|]. cbn. discriminate.
    + eexists _, _. split; [reflexivity|]. apply Hcall.
Qed.

Lemma GET_writes_only_on_fresh_success_witness :
  let w := Samples.world_of {[ "42" := Samples.cached42 ]} in
  exists w',
    JobsRoute.GET Samples.frontend_request (Samples.env_provider_down Samples.day) w
    = (Returns (JobsRoute.JsonError 503 "Failed to fetch job listings"), w') /\
    same_caches w w'.
Proof.
  cbn zeta.
  destruct (GET_writes_only_on_fresh_success Samples.frontend_request
              (Samples.env_provider_down Samples.day)
              (Samples.world_of {[ "42" := Samples.cached42 ]}))
    as (r & w' & Hr & Hcase).
  assert (Hval : (JobsRoute.GET Samples.frontend_request
                    (Samples.env_provider_down Samples.day)
                    (Samples.world_of {[ "42" := Samples.cached42 ]})).1
                 = Returns (JobsRoute.JsonError 503 "Failed to fetch job listings"))
    by reflexivity.
  rewrite Hr in Hval. cbn [fst] in Hval. injection Hval as ->.
  exists w'. split; [exact Hr|exact Hcase].
Defined.


(** A provider that answers 304 gets no error response of that status:
    building it throws, and the handler answers 500. *)
Example provider_not_modified_gives_500 :
  let e := {| now := Samples.day; today := "Mon Nov 02 2026";
              network := fun _ _ => NetworkError;
              store_ok := Samples.store_up; credentials := true;
              provider := fun _ => ProviderResponse 304 None |} in
  JobsRoute.json_error 304 "Failed to fetch job listings" = Throws /\
  (JobsRoute.GET Samples.frontend_request e (Samples.world_of ∅)).1
  = Returns (JobsRoute.JsonError 500 "Internal server error").
Proof. cbn zeta. split; reflexivity. Qed.

(** X24. After a cache miss the search route rejects the request before
    any provider call, leaving caches and trace as they were, in three
    cases: credentials are not configured (status 500, state unchanged);
    the counter of the current day has reached 90 (status 429, state
    unchanged); the query optimizer throws on the title (status 500). *)
Theorem GET_rejects_before_provider_call
    (rq : JobsRoute.SearchRequest) (e : Env) (w : World) :
  (JobsRoute.cache_lookup rq e w).1 = Returns None ->
  (credentials e = false ->
   JobsRoute.GET rq e w
   = (Returns (JobsRoute.JsonError 500 "API credentials not configured"), w)) /\
  (credentials e = true -> today e = lastResetDate w ->
   90 <= adzunaRequestsToday w ->
   JobsRoute.GET rq e w
   = (Returns (JobsRoute.JsonError 429 "API rate limit reached for today"), w)) /\
  (credentials e = true -> adzunaRequestsToday (after_day_check e w) < 90 ->
   JobsRoute.what_parameter rq = Throws ->
   exists w',
     JobsRoute.GET rq e w
     = (Returns (JobsRoute.JsonError 500 "Internal server error"), w') /\
     same_caches w w' /\ trace w' = trace w).
Proof.
  intros Hmiss. rewrite (GET_on_miss rq e w Hmiss). split; [|split].
  - intros ->. reflexivity.
  - intros -> Hday Hfull. cbn [negb]. unfold after_day_check.
    rewrite (proj2 (String.eqb_eq _ _) Hday).
    rewrite (proj2 (Z.leb_le _ _)) by lia. reflexivity.
  - intros -> Hbudget ->. cbn [negb].
    rewrite (proj2 (Z.leb_gt _ _)) by lia.
    eexists. split; [reflexivity|]. apply after_day_check_caches.
Qed.

Lemma GET_rejects_before_provider_call_witness :
  let w := Samples.world_of {[ "42" := Samples.cached42 ]} in
  JobsRoute.GET Samples.frontend_request (Samples.env_unconfigured Samples.day) w
  = (Returns (JobsRoute.JsonError 500 "API credentials not configured"), w).
Proof.
  cbn zeta. apply GET_rejects_before_provider_call; reflexivity.
Defined.

(** An error response carries the status it is given exactly when the
    status lies in 200..599 and is none of 204, 205 and 304. *)
Lemma json_error_cases (status : Z) (error : string) :
  (200 <= status <= 599 /\ status <> 204 /\ status <> 205 /\ status <> 304) /\
  JobsRoute.json_error status error = Returns (JobsRoute.JsonError status error)
  \/
  (status < 200 \/ 599 < status \/ status = 204 \/ status = 205 \/ status = 304) /\
  JobsRoute.json_error status error = Throws.
Proof.
  unfold JobsRoute.json_error, JobsRoute.null_body_status.
  destruct (200 <=? status) eqn:H1; [apply Z.leb_le in H1|apply Z.leb_gt in H1];
    cbn [andb]; [|right; split; [lia|reflexivity]].
  destruct (status <=? 599) eqn:H2; [apply Z.leb_le in H2|apply Z.leb_gt in H2];
    cbn [andb]; [|right; split; [lia|reflexivity]].
  case_bool_decide as Hnull; cbn [negb].
  - right. split; [|reflexivity].
    rewrite !elem_of_cons, elem_of_nil in Hnull. lia.
  - left. split; [|reflexivity].
    rewrite !elem_of_cons, elem_of_nil in Hnull. lia.
Qed.

(** X25. For a request with title and location of ASCII characters:
    after a cache miss with credentials and budget, once the title is
    optimized, the provider is called exactly once and the call is
    counted whatever it answers. A non-success status of the provider
    from 300 to 599 other than 304 is passed on as the status of the
    error response; a status no response with a body can carry (304, or
    outside 200..599), an unreachable provider or a body that is not
    JSON or cannot be read gives status 500; in these cases nothing is
    cached. *)
Theorem GET_provider_failures
    (rq : JobsRoute.SearchRequest) (what : option string) (e : Env) (w : World) :
  ascii_text (JobsRoute.rq_title rq) = true ->
  ascii_text (JobsRoute.rq_location rq) = true ->
  (JobsRoute.cache_lookup rq e w).1 = Returns None ->
  credentials e = true ->
  adzunaRequestsToday (after_day_check e w) < 90 ->
  JobsRoute.what_parameter rq = Returns what ->
  exists r w',
    JobsRoute.GET rq e w = (Returns r, w') /\
    trace w' = trace w ++ [ProviderCalled (JobsRoute.provider_request rq what)] /\
    adzunaRequestsToday w' = adzunaRequestsToday (after_day_check e w) + 1 /\
    match provider e (JobsRoute.provider_request rq what) with
    | ProviderUnreachable =>
        r = JobsRoute.JsonError 500 "Internal server error" /\ same_caches w w'
    | ProviderResponse status body =>
        if response_ok status then
          match body with
          | Some data => r = JobsRoute.JsonOk (JobsRoute.response_data rq data)
          | None =>
              r = JobsRoute.JsonError 500 "Internal server error" /\
              same_caches w w'
          end
        else
          (300 <= status <= 599 -> status <> 304 ->
           r = JobsRoute.JsonError status "Failed to fetch job listings") /\
          (status < 200 \/ 599 < status \/ status = 304 ->
           r = JobsRoute.JsonError 500 "Internal server error") /\
          same_caches w w'
    | ProviderInterrupted _ =>
        r = JobsRoute.JsonError 500 "Internal server error" /\ same_caches w w'
    end.
Proof.
  intros _ _ Hmiss Hcred Hbudget Hwhat.
  rewrite (GET_on_miss rq e w Hmiss), Hcred, Hwhat. cbn [negb].
  rewrite (proj2 (Z.leb_gt _ _)) by lia. cbn zeta.
  destruct (after_day_check_caches e w) as [Hday Htr].
  assert (Hcall : same_caches w (at_provider_call rq what e w) /\
                  trace (at_provider_call rq what e w)
                  = trace w ++ [ProviderCalled (JobsRoute.provider_request rq what)] /\
                  adzunaRequestsToday (at_provider_call rq what e w)
                  = adzunaRequestsToday (after_day_check e w) + 1).
  { split; [exact Hday|]. cbn. rewrite Htr. auto. }
  destruct Hcall as (Hcaches & Htrace & Hcount).
  destruct (provider e _) as [|status body|status].
  { eexists _, _. split; [reflexivity|]. auto. }
  2:{ eexists _, _. split; [reflexivity|]. auto. }
  destruct (response_ok status) eqn:Hstatus; cbn [negb].
  2:{ assert (Hno : ~ 200 <= status <= 299).
      { unfold response_ok in Hstatus.
        apply andb_false_iff in Hstatus as [H|H]; apply Z.leb_gt in H; lia. }
      destruct (json_error_cases status "Failed to fetch job listings")
        as [[Hin ->]|[Hout ->]];
        (eexists _, _; split; [reflexivity|]; split; [exact Htrace|];
         split; [exact Hcount|]; split; [|split; [|exact Hcaches]]).
      - reflexivity.
      - intros Hbad. exfalso. lia.
      - intros Hrange Hne. exfalso. lia.
      - reflexivity. }
  destruct body as [data|].
  2:{ eexists _, _. split; [reflexivity|]. auto. }
  eexists _, _. split; [reflexivity|].
  match goal with |- context [cacheSearchResults ?p ?j ?n ?t e ?w0] =>
    destruct (cacheSearchResults_keeps p j n t e w0) as (-> & -> & _) end.
  auto.
Qed.

Lemma GET_provider_failures_witness :
  exists w',
    JobsRoute.GET Samples.frontend_request (Samples.env_provider_down Samples.day)
      (Samples.world_of {[ "42" := Samples.cached42 ]})
    = (Returns (JobsRoute.JsonError 503 "Failed to fetch job listings"), w') /\
    adzunaRequestsToday w' = 1 /\
    cachedSearchResults w' = ∅.
Proof.
  destruct (GET_provider_failures Samples.frontend_request
              (Some "frontend development")
              (Samples.env_provider_down Samples.day)
              (Samples.world_of {[ "42" := Samples.cached42 ]}))
    as (r & w' & Hr & _ & Hcount & Hfail); [reflexivity..|].
  cbn in Hfail. destruct Hfail as (Hpass & _ & _ & Hs).
  rewrite Hpass in Hr by lia.
  exists w'. split; [exact Hr|]. split; [exact Hcount|exact Hs].
Defined.

Lemma after_day_check_counter (e : Env) (w : World) :
  lastResetDate (after_day_check e w) = today e /\
  (adzunaRequestsToday w <= 90 -> adzunaRequestsToday (after_day_check e w) <= 90) /\
  (today e = lastResetDate w -> after_day_check e w = w).
Proof.
  unfold after_day_check.
  destruct (String.eqb (today e) (lastResetDate w)) eqn:Hday.
  - apply String.eqb_eq in Hday. auto.
  - apply String.eqb_neq in Hday. cbn. repeat split; [lia|congruence].
Qed.

(** X26. The daily budget is a hard ceiling kept by every request: the
    search route calls the provider at most once per request, only while
    the counter of the current day is below 90, and counts the call
    before making it, so a counter that is at most 90 stays at most 90;
    on the first request of a new day that reaches the limiter the
    counter starts again from 0. *)
Theorem GET_keeps_daily_budget
    (rq : JobsRoute.SearchRequest) (e : Env) (w : World) :
  exists r w' events,
    JobsRoute.GET rq e w = (Returns r, w') /\
    trace w' = trace w ++ events /\
    (length (provider_calls events) <= 1)%nat /\
    (adzunaRequestsToday w <= 90 -> adzunaRequestsToday w' <= 90) /\
    (provider_calls events <> [] ->
     lastResetDate w' = today e /\
     adzunaRequestsToday w' <= 90 /\
     adzunaRequestsToday w'
     = (if String.eqb (today e) (lastResetDate w)
        then adzunaRequestsToday w else 0) + 1).
Proof.
  assert (Hnone : forall r w',
    w' = w \/ w' = after_day_check e w ->
    exists r0 w0 events,
      (Returns r, w') = (@Returns JobsRoute.HttpResponse r0, w0) /\
      trace w0 = trace w ++ events /\
      (length (provider_calls events) <= 1)%nat /\
      (adzunaRequestsToday w <= 90 -> adzunaRequestsToday w0 <= 90) /\
      (provider_calls events <> [] ->
       lastResetDate w0 = today e /\
       adzunaRequestsToday w0 <= 90 /\
       adzunaRequestsToday w0
       = (if String.eqb (today e) (lastResetDate w)
          then adzunaRequestsToday w else 0) + 1)).
  { intros r w' Hw. exists r, w', []. split; [reflexivity|].
    destruct (after_day_check_caches e w) as [_ Htr].
    destruct (after_day_check_counter e w) as (_ & Hle & _).
    destruct Hw as [-> | ->]; rewrite ?Htr, app_nil_r; cbn;
      repeat split; auto; congruence. }
  destruct (cache_lookup_reads rq e w) as [[cached|] Hr].
  { rewrite (GET_on_hit rq cached) by (rewrite Hr; reflexivity).
    apply Hnone. auto. }
  rewrite GET_on_miss by (rewrite Hr; reflexivity).
  destruct (negb (credentials e)); [apply Hnone; auto|].
  destruct (90 <=? adzunaRequestsToday (after_day_check e w)) eqn:Hfull;
    [apply Hnone; auto|].
  apply Z.leb_gt in Hfull.
  destruct (JobsRoute.what_parameter rq) as [what|]; [|apply Hnone; auto].
  cbn zeta.
  assert (Hcalled : forall r w',
    trace w' = trace (at_provider_call rq what e w) ->
    adzunaRequestsToday w' = adzunaRequestsToday (at_provider_call rq what e w) ->
    lastResetDate w' = lastResetDate (at_provider_call rq what e w) ->
    exists r0 w0 events,
      (Returns r, w') = (@Returns JobsRoute.HttpResponse r0, w0) /\
      trace w0 = trace w ++ events /\
      (length (provider_calls events) <= 1)%nat /\
      (adzunaRequestsToday w <= 90 -> adzunaRequestsToday w0 <= 90) /\
      (provider_calls events <> [] ->
       lastResetDate w0 = today e /\
       adzunaRequestsToday w0 <= 90 /\
       adzunaRequestsToday w0
       = (if String.eqb (today e) (lastResetDate w)
          then adzunaRequestsToday w else 0) + 1)).
  { intros r w' Ht Hn Hd.
    exists r, w', [ProviderCalled (JobsRoute.provider_request rq what)].
    split; [reflexivity|].
    destruct (after_day_check_caches e w) as [_ Htr].
    destruct (after_day_check_counter e w) as (Hdate & _ & _).
    rewrite Ht, Hn, Hd. cbn [at_provider_call trace with_event with_counter
                             adzunaRequestsToday lastResetDate].
    rewrite Htr, Hdate.
    assert (Hbase : adzunaRequestsToday (after_day_check e w)
                    = if String.eqb (today e) (lastResetDate w)
                      then adzunaRequestsToday w else 0).
    { unfold after_day_check.
      destruct (String.eqb (today e) (lastResetDate w)); reflexivity. }
    rewrite <- Hbase. cbn. repeat split; auto; lia. }
  destruct (provider e _) as [|status body|status];
    [apply Hcalled; reflexivity| |apply Hcalled; reflexivity].
  destruct (negb (response_ok status));
    [destruct (JobsRoute.json_error status _); apply Hcalled; reflexivity|].
  destruct body as [data|]; [|apply Hcalled; reflexivity].
  match goal with |- context [cacheSearchResults ?p ?j ?n ?t e ?w0] =>
    destruct (cacheSearchResults_keeps p j n t e w0) as (Ht & Hn & Hd) end.
  apply Hcalled; assumption.
Qed.

Lemma GET_keeps_daily_budget_witness :
  let w := Samples.world_of {[ "42" := Samples.cached42 ]} in
  exists r w',
    JobsRoute.GET Samples.frontend_request
      (Samples.env_at Samples.day NetworkError Samples.store_up) w
    = (Returns r, w') /\
    adzunaRequestsToday w' <= 90.
Proof.
  cbn zeta.
  destruct (GET_keeps_daily_budget Samples.frontend_request
              (Samples.env_at Samples.day NetworkError Samples.store_up)
              (Samples.world_of {[ "42" := Samples.cached42 ]}))
    as (r & w' & events & Hr & _ & _ & Hle & _).
  exists r, w'. split; [exact Hr|]. apply Hle. vm_compute. discriminate.
Defined.

(** X27. A search with title and location of ASCII characters that was
    fetched from the provider and cached (the cache key being the name
    of a document, the store client accepting
    the listings, fewer than 500 with distinct names of documents as ids,
    and the store the commit) is answered
    from the cache when the same request comes again within 20 days: with
    the listings of the first answer as stored, the same totals and the
    cache-hit flag, without a provider call and whatever the credentials,
    the budget and the provider are by then. *)
Theorem repeated_search_is_served_from_cache
    (rq : JobsRoute.SearchRequest) (what : option string) (status : Z)
    (data : ProviderData) (e1 e2 : Env) (w : World) :
  ascii_text (JobsRoute.rq_title rq) = true ->
  ascii_text (JobsRoute.rq_location rq) = true ->
  JobsRoute.rq_skipCache rq = false ->
  (JobsRoute.cache_lookup rq e1 w).1 = Returns None ->
  credentials e1 = true ->
  adzunaRequestsToday (after_day_check e1 w) < 90 ->
  JobsRoute.what_parameter rq = Returns what ->
  provider e1 (JobsRoute.provider_request rq what)
    = ProviderResponse status (Some data) ->
  response_ok status = true ->
  is_document_id (getSearchCacheKey (JobsRoute.params_of rq)) = true ->
  forallb storable (jobs (JobsRoute.response_data rq data)) = true ->
  (length (jobs (JobsRoute.response_data rq data)) < 500)%nat ->
  store_ok e1 BatchCommit = true ->
  NoDup (map job_id (jobs (JobsRoute.response_data rq data))) ->
  store_ok e2 GetDoc = true ->
  now e2 <= now e1 + DEFAULT_EXPIRATION_MS ->
  exists w1,
    JobsRoute.GET rq e1 w
    = (Returns (JobsRoute.JsonOk (JobsRoute.response_data rq data)), w1) /\
    JobsRoute.GET rq e2 w1
    = (Returns (JobsRoute.JsonOk
                  {| jobs := map (stored_as (now e1))
                               (jobs (JobsRoute.response_data rq data));
                     totalJobs := totalJobs (JobsRoute.response_data rq data);
                     totalPages := totalPages (JobsRoute.response_data rq data);
                     currentPage := JobsRoute.rq_page rq;
                     fromCache := true |}), w1).
Proof.
  intros _ _ Hskip Hmiss Hcred Hbudget Hwhat Hprov Hok Hdoc%doc_document_id
    Hjobs _ Hcommit Hnd Hread Hlive.
  rewrite (GET_on_miss rq e1 w Hmiss), Hcred, Hwhat. cbn [negb].
  rewrite (proj2 (Z.leb_gt _ _)) by lia. cbn zeta. rewrite Hprov, Hok.
  cbn [negb].
  rewrite (cacheSearchResults_commits _ _ _ _ _ _ _ Hdoc)
    by auto using storable_all_accepted.
  cbn [snd].
  set (rd := JobsRoute.response_data rq data) in *.
  set (entry := search_entry (JobsRoute.params_of rq) (jobs rd) (totalJobs rd)
                  (totalPages rd) (now e1)).
  match goal with |- context [foldl apply_write ?w0 (job_writes ?t ?js)] =>
    set (w1 := foldl apply_write w0 (job_writes t js));
    pose proof (job_writes_keep t js w0) as Hkeep;
    pose proof (fun job => job_writes_lookup t js w0 job Hnd) as Hlookup
  end.
  cbn zeta in Hkeep. fold w1 in Hkeep, Hlookup. destruct Hkeep as (Hsearch & _).
  exists w1. split; [reflexivity|].
  rewrite (GET_on_hit rq entry e2 w1).
  - cbn [cs_jobIds cs_totalJobs cs_totalPages entry search_entry].
    rewrite (omap_valid_written (now e1) (jobs rd)); [reflexivity|].
    intros job Hin. apply Hlookup. exact Hin.
  - apply (cache_lookup_hit rq entry e2 w1 _ Hskip Hread Hdoc); [|assumption].
    rewrite Hsearch. cbn [cachedSearchResults with_searches].
    apply lookup_insert_eq.
Qed.

Lemma repeated_search_is_served_from_cache_witness :
  exists w1,
    JobsRoute.GET Samples.frontend_request
      (Samples.env_at (5 * Samples.day) NetworkError Samples.store_up)
      (Samples.world_of ∅)
    = (Returns (JobsRoute.JsonOk Samples.frontend_response), w1) /\
    JobsRoute.GET Samples.frontend_request
      (Samples.env_unconfigured (25 * Samples.day)) w1
    = (Returns (JobsRoute.JsonOk
                  {| jobs := [stored_as (5 * Samples.day) Samples.listing42];
                     totalJobs := 1; totalPages := Some 1;
                     currentPage := Some 1; fromCache := true |}), w1).
Proof.
  apply (repeated_search_is_served_from_cache Samples.frontend_request
           (Some "frontend development") 200
           {| pd_results := Some [Samples.listing42]; pd_count := Some 1 |});
    first [reflexivity
          | (cbn; lia)
          | (vm_compute; discriminate)
          | (repeat constructor; intros H; apply elem_of_nil in H; exact H)].
Defined.

End SearchRoute.

(** ** Failures and suggestions of the query optimizer *)

Section OptimizerMore.

Lemma inherited_words (word : string) :
  abbreviation word = Inherited <-> word = "constructor" \/ word = "__proto__".
Proof.
  split.
  - unfold abbreviation. destruct (assoc word ABBREVIATIONS); [discriminate|].
    destruct (mem word inherited_names) eqn:Hm; [|discriminate]. intros _.
    unfold mem, inherited_names in Hm. cbn [existsb] in Hm.
    rewrite orb_false_r in Hm.
    apply orb_prop in Hm as [H|H]; apply String.eqb_eq in H; auto.
  - intros [-> | ->]; reflexivity.
Qed.

Lemma expand_from_throws (words rest : list string) (i : nat) (acc : list string) :
  Exists (fun w => abbreviation w = Inherited) rest ->
  expand_from words i rest acc = Throws.
Proof.
  revert i acc. induction rest as [|w rest IH]; intros i acc H.
  - inversion H.
  - cbn [expand_from]. destruct (abbreviation w) eqn:Hw; [|reflexivity|].
    + apply IH. inversion H; [congruence|assumption].
    + apply IH. inversion H; [congruence|assumption].
Qed.

Lemma inherited_dichotomy (l : list string) :
  Forall (fun w => abbreviation w <> Inherited) l \/
  Exists (fun w => abbreviation w = Inherited) l.
Proof.
  induction l as [|w l [IH|IH]].
  - left. constructor.
  - destruct (abbreviation w) eqn:Hw.
    + left. constructor; [congruence|exact IH].
    + right. left. exact Hw.
    + left. constructor; [congruence|exact IH].
  - right. right. exact IH.
Qed.

(** [expandAbbreviations] throws exactly on an inherited name. *)
Lemma expandAbbreviations_throws_iff (term : string) :
  expandAbbreviations term = Throws <->
  Exists (fun w => abbreviation w = Inherited) (split_ws (toLowerCase term)).
Proof.
  unfold expandAbbreviations. split.
  - intros Hthrow.
    destruct (inherited_dichotomy (split_ws (toLowerCase term))) as [Hnone|Hex];
      [|exact Hex].
    destruct (expand_from_returns (split_ws (toLowerCase term))
                (split_ws (toLowerCase term)) 0 (set_add [] term) Hnone)
      as [terms Ht].
    congruence.
  - apply expand_from_throws.
Qed.

(** X28. On a query of ASCII characters the optimizer and the
    suggestions throw in exactly one situation: [optimizeSearchQuery]
    throws if and only if the query is not blank, holds no boolean
    operator, and one of its lower-cased, blank-separated words is
    [constructor] or [__proto__]; [getSearchSuggestions] throws if and
    only if the query is not blank and holds such a word. On every other
    such input both return. *)
Theorem optimizer_throws_exactly_on_inherited_names (query : string) :
  ascii_text query = true ->
  let inherited :=
    Exists (fun w => w = "constructor" \/ w = "__proto__")
      (split_ws (toLowerCase query)) in
  (optimizeSearchQuery query = Throws <->
   is_empty (trim query) = false /\ has_boolean_operator query = false /\
   inherited) /\
  (getSearchSuggestions query = Throws <->
   is_empty (trim query) = false /\ inherited).
Proof.
  intros _. cbn zeta.
  assert (Hex : Exists (fun w => w = "constructor" \/ w = "__proto__")
                  (split_ws (toLowerCase query)) <->
                expandAbbreviations query = Throws).
  { rewrite expandAbbreviations_throws_iff, !Exists_exists.
    split; intros (w & Hin & Hw); exists w; (split; [exact Hin|]);
      apply inherited_words; exact Hw. }
  unfold optimizeSearchQuery, getSearchSuggestions. rewrite Hex.
  destruct (is_empty (trim query)) eqn:Ht.
  { rewrite orb_true_r. split; (split; [discriminate|intros [? _]; discriminate]). }
  destruct (is_empty query) eqn:Hq;
    [apply is_empty_true in Hq; subst; discriminate Ht|].
  cbn [orb]. split.
  - destruct (has_boolean_operator query).
    + split; [discriminate|]. intros (_ & ? & _). discriminate.
    + destruct (expandAbbreviations query) as [terms|].
      * split; [|intros (_ & _ & ?); discriminate].
        destruct (sort_by_length_desc _); discriminate.
      * split; auto.
  - destruct (expandAbbreviations query) as [terms|].
    + split; [discriminate|]. intros [_ ?]. discriminate.
    + split; auto.
Qed.

Lemma optimizer_throws_exactly_on_inherited_names_witness :
  optimizeSearchQuery "Senior Constructor" = Throws /\
  getSearchSuggestions "Senior Constructor" = Throws.
Proof.
  pose proof (optimizer_throws_exactly_on_inherited_names "Senior Constructor"
                eq_refl) as H.
  cbn zeta in H. destruct H as [[_ Hoptimize] [_ Hsuggest]].
  split.
  - apply Hoptimize. split; [reflexivity|]. split; [reflexivity|].
    right. left. left. reflexivity.
  - apply Hsuggest. split; [reflexivity|]. right. left. left. reflexivity.
Defined.

Lemma mem_In (x : string) (l : list string) : mem x l = true <-> In x l.
Proof.
  unfold mem. rewrite existsb_exists. split.
  - intros (y & Hy & ->%String.eqb_eq). exact Hy.
  - intros H. exists x. split; [exact H|apply String.eqb_refl].
Qed.

Lemma set_add_In (l : list string) (x y : string) :
  In y (set_add l x) <-> In y l \/ y = x.
Proof.
  unfold set_add. destruct (mem x l) eqn:Hm.
  - apply mem_In in Hm. split; [auto|]. intros [H| ->]; assumption.
  - rewrite in_app_iff. cbn. split; intros [H|H]; auto.
    + destruct H as [<-|[]]. auto.
Qed.

Lemma set_add_NoDup (l : list string) (x : string) :
  List.NoDup l -> List.NoDup (set_add l x).
Proof.
  intros Hnd. unfold set_add. destruct (mem x l) eqn:Hm; [exact Hnd|].
  apply NoDup_ListNoDup, NoDup_app. repeat split.
  - apply NoDup_ListNoDup, Hnd.
  - intros y Hy [->|[]%elem_of_nil]%elem_of_cons.
    apply list_elem_of_In, mem_In in Hy. congruence.
  - apply NoDup_singleton.
Qed.

(** X29. The suggestions [getSearchSuggestions] returns are at most five,
    pairwise distinct, and never include the query itself; a blank query
    gets none. *)
Theorem suggestions_are_few_distinct_and_new (query : string) (l : list string) :
  getSearchSuggestions query = Returns l ->
  (length l <= 5)%nat /\ List.NoDup l /\ ~ In query l /\
  (is_empty (trim query) = true -> l = []).
Proof.
  unfold getSearchSuggestions.
  destruct (is_empty query || is_empty (trim query)) eqn:Hblank.
  { intros [= <-]. repeat split; [cbn; lia|constructor|intros []]. }
  apply orb_false_elim in Hblank as [_ Hblank].
  destruct (expandAbbreviations query) as [terms|]; [|discriminate].
  intros [= <-].
  set (add := fun all suggestion =>
                if String.eqb suggestion query then all else set_add all suggestion).
  assert (Hinner : forall xs all,
            List.NoDup all /\ ~ In query all ->
            List.NoDup (foldl add all xs) /\ ~ In query (foldl add all xs)).
  { induction xs as [|x xs IH]; intros all Hall; [exact Hall|].
    cbn [foldl]. apply IH. unfold add.
    destruct (String.eqb x query) eqn:Hx; [exact Hall|].
    destruct Hall as [Hnd Hq]. split; [apply set_add_NoDup, Hnd|].
    rewrite set_add_In. intros [H|H]; [auto|].
    apply String.eqb_neq in Hx. congruence. }
  assert (Houter : forall ts all,
            List.NoDup all /\ ~ In query all ->
            List.NoDup (foldl (fun all term => foldl add all (findFuzzyMatches term))
                          all ts) /\
            ~ In query (foldl (fun all term => foldl add all (findFuzzyMatches term))
                          all ts)).
  { induction ts as [|t ts IH]; intros all Hall; [exact Hall|].
    cbn [foldl]. apply IH, Hinner, Hall. }
  destruct (Houter terms []) as [Hnd Hq]; [split; [constructor|intros []]|].
  split; [rewrite length_take; lia|]. split; [|split].
  - apply NoDup_ListNoDup. eapply sublist_NoDup; [|apply sublist_take].
    apply NoDup_ListNoDup, Hnd.
  - intros Hin. apply Hq. apply list_elem_of_In.
    eapply subseteq_take. apply list_elem_of_In, Hin.
  - congruence.
Qed.

Lemma suggestions_are_few_distinct_and_new_witness :
  getSearchSuggestions "frontend dev"
  = Returns ["frontend developer"; "front-end developer"; "frontend development"] /\
  ~ In "frontend dev"
      ["frontend developer"; "front-end developer"; "frontend development"].
Proof.
  split; [reflexivity|].
  apply (suggestions_are_few_distinct_and_new "frontend dev"). reflexivity.
Defined.

End OptimizerMore.

(** ** Page count of a fresh answer *)

Section PageCount.

Lemma nearest_even_bounds (n d : Z) :
  0 < d ->
  n `div` d <= Number.nearest_even n d <= n `div` d + 1 /\
  (n `mod` d = 0 -> Number.nearest_even n d = n `div` d) /\
  (d < 2 * (n `mod` d) -> Number.nearest_even n d = n `div` d + 1).
Proof.
  intros Hd. unfold Number.nearest_even.
  destruct (2 * (n `mod` d) <? d) eqn:H1.
  - apply Z.ltb_lt in H1. repeat split; intros; lia.
  - apply Z.ltb_ge in H1. destruct (d <? 2 * (n `mod` d)) eqn:H2.
    + repeat split; intros; lia.
    + apply Z.ltb_ge in H2.
      destruct (Z.even (n `div` d)); repeat split; intros; lia.
Qed.

(** For a dividend below [2^53] the quotient is scaled up, never down,
    and the scaled quotient is at least [2^52]. *)
Lemma exponent_scaled (a b : Z) :
  0 < a < 2 ^ 53 -> 0 < b ->
  Number.exponent a b <= 0 /\
  2 ^ 52 * b <= a * 2 ^ (- Number.exponent a b).
Proof.
  intros Ha Hb.
  pose proof (Z.log2_spec a ltac:(lia)) as [Hla1 Hla2].
  pose proof (Z.log2_spec b ltac:(lia)) as [Hlb1 Hlb2].
  pose proof (Z.log2_nonneg a) as Hla0.
  pose proof (Z.log2_nonneg b) as Hlb0.
  assert (Hla : Z.log2 a <= 52).
  { destruct (Z_le_gt_dec (Z.log2 a) 52) as [H|H]; [exact H|].
    assert (2 ^ 53 <= 2 ^ Z.log2 a) by (apply Z.pow_le_mono_r; lia). lia. }
  unfold Number.exponent. set (e := Z.log2 a - Z.log2 b - 52).
  assert (He : e <= 0) by (unfold e; lia).
  unfold Number.numerator, Number.denominator.
  rewrite (Z.max_r 0 (- e)) by lia. rewrite (Z.max_l 0 e) by lia.
  rewrite Z.pow_0_r, Z.mul_1_r.
  destruct (a * 2 ^ (- e) <? 2 ^ 52 * b) eqn:Hcmp.
  - split; [lia|].
    replace (- (e - 1)) with (Z.log2 b + 53 - Z.log2 a) by (unfold e; lia).
    assert (Hp : 2 ^ Z.log2 a * 2 ^ (Z.log2 b + 53 - Z.log2 a)
                 = 2 ^ (Z.log2 b + 53)).
    { rewrite <- Z.pow_add_r by lia. f_equal. lia. }
    assert (Hq : 2 ^ (Z.log2 b + 53) = 2 ^ 52 * 2 ^ Z.succ (Z.log2 b)).
    { rewrite <- Z.pow_add_r by lia. f_equal. lia. }
    assert (0 < 2 ^ (Z.log2 b + 53 - Z.log2 a))
      by (apply Z.pow_pos_nonneg; lia).
    nia.
  - apply Z.ltb_ge in Hcmp. split; [exact He|exact Hcmp].
Qed.

(** Rounding the quotient of a dividend below [2^53] to a double never
    carries it to or across an integer: [Math.ceil] of the double is the
    ceiling of the exact quotient. *)
Lemma ceil_div_exact (a b : Z) :
  0 < a < 2 ^ 53 -> 0 < b ->
  Number.ceil_div a b = - ((- a) `div` b).
Proof.
  intros Ha Hb. destruct (exponent_scaled a b Ha Hb) as [He Hscaled].
  unfold Number.ceil_div, Number.significand, Number.numerator,
    Number.denominator.
  set (e := Number.exponent a b) in *.
  rewrite (Z.max_r 0 (- e)) by lia. rewrite (Z.max_l 0 e) by lia.
  rewrite Z.pow_0_r, Z.mul_1_r.
  set (K := 2 ^ (- e)) in *.
  assert (HK : 0 < K) by (apply Z.pow_pos_nonneg; lia).
  set (m := Number.nearest_even (a * K) b).
  assert (Hceil : (if 0 <=? e then m * 2 ^ e else - ((- m) `div` K))
                  = - ((- m) `div` K)).
  { destruct (0 <=? e) eqn:H0; [|reflexivity]. apply Z.leb_le in H0.
    assert (e = 0) as -> by lia. subst K. cbn. rewrite Z.div_1_r. lia. }
  rewrite Hceil. clear Hceil.
  destruct (nearest_even_bounds (a * K) b Hb) as (Hm & Hexact & Hup).
  fold m in Hm, Hexact, Hup.
  pose proof (Z.div_mod a b ltac:(lia)) as Hab.
  pose proof (Z.mod_pos_bound a b Hb) as Hs.
  set (n := a `div` b) in *. set (s := a `mod` b) in *.
  pose proof (Z.div_mod (a * K) b ltac:(lia)) as HN.
  pose proof (Z.mod_pos_bound (a * K) b Hb) as Hu.
  set (q := (a * K) `div` b) in *. set (u := (a * K) `mod` b) in *.
  assert (Hca : - ((- a) `div` b) = if s =? 0 then n else n + 1).
  { pose proof (Z.div_mod (- a) b ltac:(lia)) as H1.
    pose proof (Z.mod_pos_bound (- a) b Hb) as H2.
    destruct (s =? 0) eqn:Hs0;
      [apply Z.eqb_eq in Hs0|apply Z.eqb_neq in Hs0]; nia. }
  rewrite Hca.
  pose proof (Z.div_mod (- m) K ltac:(lia)) as H3.
  pose proof (Z.mod_pos_bound (- m) K HK) as H4.
  destruct (s =? 0) eqn:Hs0; [apply Z.eqb_eq in Hs0|apply Z.eqb_neq in Hs0].
  - assert (Hu0 : u = 0).
    { assert (H : a * K = b * (n * K)) by nia.
      unfold u. rewrite H. rewrite Z.mul_comm. apply Z.mod_mul. lia. }
    assert (Hq : q = n * K) by nia.
    rewrite (Hexact Hu0) in *. nia.
  - assert (Hlow : n * K < m).
    { destruct (Z_lt_le_dec (n * K) q) as [Hlt|Hge]; [lia|].
      assert (Hq : q = n * K) by nia.
      assert (Hus : u = s * K) by nia.
      rewrite Hup; [lia|]. nia. }
    assert (Hhigh : m <= (n + 1) * K) by nia.
    nia.
Qed.

(** The quotient of [Number] is the one of binary64 division as the
    Standard Library specifies it, on small operands, around [2^52] and
    [2^53], and beyond. *)
Example quotient_as_binary64 :
  let dividends :=
    seqZ 1 200 ++ seqZ (2 ^ 52 - 20) 40 ++ seqZ (2 ^ 53 - 40) 40
    ++ [2 ^ 54; 2 ^ 60 + 2 ^ 8; 3 * 2 ^ 70] in
  let divisors :=
    seqZ 1 50 ++ seqZ (2 ^ 30) 10 ++ seqZ (2 ^ 52 - 5) 10
    ++ seqZ (2 ^ 53 - 10) 10 in
  forallb (fun a =>
             forallb (fun b =>
                        bool_decide (Number.reference_div a b
                                     = Some (Number.normal a b)))
               divisors)
    dividends = true.
Proof. vm_compute. reflexivity. Qed.

(** Beyond [2^53] results the double quotient loses its fraction, and
    [Math.ceil] with it: 2^54 results in pages of 3 need one page more
    than the route reports. *)
Example total_pages_beyond_doubles :
  JobsRoute.total_pages (2 ^ 54) (Some 3) = Some 6004799503160661 /\
  6004799503160661 * 3 < 2 ^ 54.
Proof. split; [reflexivity|]. vm_compute. reflexivity. Qed.

(** X30. For a positive page size and a non-negative result count, both
    below [2^53] and so exact as doubles, the page count of a fresh
    answer is the least number of pages that hold all results, although
    it is computed from the rounded quotient: [totalPages] pages hold at
    least [count] results and one page less does not, and it is 0 exactly
    for an empty result. With a page size of 0 or [NaN] no finite page
    count is produced. *)
Theorem total_pages_is_ceiling (count : Z) (results_per_page : option Z) :
  (forall r, results_per_page = Some r -> 0 < r < 2 ^ 53 ->
     0 <= count < 2 ^ 53 ->
     exists pages,
       JobsRoute.total_pages count results_per_page = Some pages /\
       (pages - 1) * r < count <= pages * r /\
       (pages = 0 <-> count = 0)) /\
  (results_per_page = None \/ results_per_page = Some 0 ->
   JobsRoute.total_pages count results_per_page = None).
Proof.
  split.
  - intros r -> Hr Hc. unfold JobsRoute.total_pages.
    rewrite (proj2 (Z.eqb_neq _ _)) by lia.
    destruct (count =? 0) eqn:H0.
    { apply Z.eqb_eq in H0. subst count. exists 0. split; [reflexivity|]. lia. }
    apply Z.eqb_neq in H0.
    rewrite (proj2 (Z.ltb_lt 0 count)) by lia.
    rewrite (proj2 (Z.ltb_lt 0 r)) by lia. cbn [Bool.eqb].
    rewrite !Z.abs_eq by lia. rewrite ceil_div_exact by lia.
    eexists. split; [reflexivity|].
    pose proof (Z.div_mod (- count) r ltac:(lia)) as Hdm.
    pose proof (Z.mod_pos_bound (- count) r ltac:(lia)) as Hmod.
    split; nia.
  - intros [-> | ->]; reflexivity.
Qed.

Lemma total_pages_is_ceiling_witness :
  exists pages,
    JobsRoute.total_pages 21 (Some 10) = Some pages /\
    (pages - 1) * 10 < 21 <= pages * 10.
Proof.
  destruct (total_pages_is_ceiling 21 (Some 10)) as [H _].
  destruct (H 10) as (pages & Hp & Hb & _); [reflexivity|lia|lia|].
  exists pages. split; [exact Hp|exact Hb].
Defined.

End PageCount.
